(** * Texture-coordinate transform descriptors of the TextureTransform step

    A shallow embedding of [code/PostProcessing/TextureTransform.h]:
    the descriptor [STransformVecInfo], its tolerance-based comparison
    [operator==], the identity test [IsUntransformed] and the matrix
    composition [GetMatrix], followed by a model of the pass
    [TextureTransformStep::Execute] that the header declares.

    The C++ type [float] is modelled as IEEE-754 binary32 through the
    parametric specification of the standard library ([SpecFloat] at
    precision 24 and maximal exponent 128), so every definition below
    computes, including on infinities, signed zeros and NaN.  The
    functions of the C library and the macros of other headers are
    section variables. *)

From Stdlib Require Import ZArith List Bool Lia.
From Stdlib Require Import Floats.SpecFloat.
From stdpp Require Import base option list gmap.

Local Open Scope Z_scope.

(* ================================================================== *)
(** ** The C++ [float]: IEEE-754 binary32 *)

Definition float : Type := spec_float.

Module F32.

Definition prec : Z := 24.
Definition emax : Z := 128.

Definition add : float -> float -> float := SFadd prec emax.
Definition sub : float -> float -> float := SFsub prec emax.
Definition mul : float -> float -> float := SFmul prec emax.
Definition div : float -> float -> float := SFdiv prec emax.
Definition neg : float -> float := SFopp.
Definition fabs : float -> float := SFabs.

(** The comparison operators of C++ on floats; all of them answer
    [false] when an operand is NaN, except [!=]. *)
Definition eqb (x y : float) : bool := SFeqb x y.
Definition ltb (x y : float) : bool := SFltb x y.
Definition leb (x y : float) : bool := SFleb x y.
Definition gtb (x y : float) : bool := SFltb y x.
Definition neb (x y : float) : bool := negb (SFeqb x y).

Definition zero : float := S754_zero false.
Definition nan : float := S754_nan.

(** An integer constant, rounded to binary32. *)
Definition of_Z (z : Z) : float := binary_normalize prec emax z 0 false.

(** An integer as an unrounded mantissa with exponent 0. *)
Definition exact_Z (z : Z) : float :=
  match z with
  | Z0 => S754_zero false
  | Zpos p => S754_finite false p 0
  | Zneg p => S754_finite true p 0
  end.

(** A decimal literal [n / d] written with the suffix [f]: the
    quotient of the two integers, rounded once to binary32. *)
Definition lit (n d : Z) : float := div (exact_Z n) (exact_Z d).

Definition one : float := of_Z 1.

(** Contextual conversion of a float to [bool] ([if (x)], [!x]):
    true unless the value compares equal to zero. *)
Definition to_bool (x : float) : bool := neb x zero.

Definition is_nan (x : float) : bool :=
  match x with S754_nan => true | _ => false end.

Definition valid (x : float) : bool := valid_binary prec emax x.

End F32.

(* ================================================================== *)
(** ** Types declared by the public headers *)

(** Modelled from the spec: the enumeration [aiTextureMapMode] of
    [assimp/material.h] is not part of this file; the spec lists the
    mapping modes wrap, clamp, mirror and decal. *)
Inductive aiTextureMapMode : Type :=
| aiTextureMapMode_Wrap
| aiTextureMapMode_Clamp
| aiTextureMapMode_Mirror
| aiTextureMapMode_Decal.

(** Modelled from the spec: [aiVector2D] of [assimp/vector2.h], a 2D
    vector of floats. *)
Record aiVector2D : Type := mkVector2D { x : float; y : float }.

(** Modelled from the spec: [aiUVTransform] of [assimp/material.h],
    the base class of the descriptor: translation, scaling and a
    rotation angle in radians, with the defaults translation (0,0),
    scale (1,1) and rotation 0. *)
Record aiUVTransform : Type := mkUVTransform {
  uv_mTranslation : aiVector2D;
  uv_mScaling : aiVector2D;
  uv_mRotation : float
}.

(** Modelled from the spec: the default transform, translation (0,0),
    scale (1,1) and rotation 0. *)
Definition aiUVTransform_default : aiUVTransform :=
  mkUVTransform (mkVector2D F32.zero F32.zero)
                (mkVector2D F32.one F32.one)
                F32.zero.

(* ================================================================== *)
(** ** Constants of the header *)

(** [unsigned int] is a 32-bit integer, kept as a [Z] in
    [0, 2^32). *)
Definition uint : Type := Z.

Definition AI_TT_UV_IDX_LOCK_TBD : uint := 0xffffffff.
Definition AI_TT_UV_IDX_LOCK_NONE : uint := 0xeeeeeeee.

(* ================================================================== *)
(** ** [TTUpdateInfo]: a shortcut into the material list *)

Record TTUpdateInfo : Type := mkTTUpdateInfo {
  (** direct shortcut, if available: the address of the stored
      channel index, [None] for [nullptr] *)
  directShortcut : option nat;
  (** the material, [None] for [nullptr] *)
  mat : option nat;
  (** texture type *)
  semantic : uint;
  (** texture index *)
  index : uint
}.

Definition TTUpdateInfo_default : TTUpdateInfo :=
  mkTTUpdateInfo None None 0 0.

(* ================================================================== *)
(** ** [STransformVecInfo] *)

Record STransformVecInfo : Type := mkSTransformVecInfo {
  (** the base class [aiUVTransform] *)
  base : aiUVTransform;
  (** source texture coordinate index *)
  uvIndex : uint;
  (** texture mapping mode in the u direction *)
  mapU : aiTextureMapMode;
  (** texture mapping mode in the v direction *)
  mapV : aiTextureMapMode;
  (** locked destination UV index *)
  lockedPos : uint;
  (** shortcuts into all materials referencing this transform setup *)
  updateList : list TTUpdateInfo
}.

Definition mTranslation (t : STransformVecInfo) : aiVector2D :=
  uv_mTranslation (base t).
Definition mScaling (t : STransformVecInfo) : aiVector2D :=
  uv_mScaling (base t).
Definition mRotation (t : STransformVecInfo) : float :=
  uv_mRotation (base t).

(** The default member initialisers of the struct. *)
Definition STransformVecInfo_default : STransformVecInfo :=
  mkSTransformVecInfo aiUVTransform_default
                      0
                      aiTextureMapMode_Wrap
                      aiTextureMapMode_Wrap
                      AI_TT_UV_IDX_LOCK_NONE
                      [].

(** [const static float epsilon = 0.05f] of [operator==]. *)
Definition epsilon : float := F32.lit 5 100.

(** [STransformVecInfo::operator==] *)
Definition operator_eq (this other : STransformVecInfo) : bool :=
  if F32.gtb (F32.fabs (F32.sub (x (mTranslation this)) (x (mTranslation other)))) epsilon
     || F32.gtb (F32.fabs (F32.sub (y (mTranslation this)) (y (mTranslation other)))) epsilon
  then false
  else
  if F32.gtb (F32.fabs (F32.sub (x (mScaling this)) (x (mScaling other)))) epsilon
     || F32.gtb (F32.fabs (F32.sub (y (mScaling this)) (y (mScaling other)))) epsilon
  then false
  else
  if F32.gtb (F32.fabs (F32.sub (mRotation this) (mRotation other))) epsilon
  then false
  else true.

(** [STransformVecInfo::operator!=] *)
Definition operator_ne (this other : STransformVecInfo) : bool :=
  negb (operator_eq this other).

(* ================================================================== *)
(** ** 3x3 matrices *)

(** Modelled from the spec: [aiMatrix3x3] of [assimp/matrix3x3.h] is
    not part of this file.  The spec describes a 3x3 affine matrix whose
    default value is the identity; rows are named a, b, c and columns
    1, 2, 3, as the assignments [mScale.a1], [mRot.a2], [mTrans.a3] of
    [GetMatrix] show. *)
Record aiMatrix3x3 : Type := mkMatrix3x3 {
  a1 : float; a2 : float; a3 : float;
  b1 : float; b2 : float; b3 : float;
  c1 : float; c2 : float; c3 : float
}.

(** Modelled from the spec: the default constructor [aiMatrix3x3()],
    the identity from which the matrix builder starts. *)
Definition aiMatrix3x3_default : aiMatrix3x3 :=
  mkMatrix3x3 F32.one F32.zero F32.zero
              F32.zero F32.one F32.zero
              F32.zero F32.zero F32.one.

Definition set_a1 (v : float) (m : aiMatrix3x3) : aiMatrix3x3 :=
  mkMatrix3x3 v (a2 m) (a3 m) (b1 m) (b2 m) (b3 m) (c1 m) (c2 m) (c3 m).
Definition set_a2 (v : float) (m : aiMatrix3x3) : aiMatrix3x3 :=
  mkMatrix3x3 (a1 m) v (a3 m) (b1 m) (b2 m) (b3 m) (c1 m) (c2 m) (c3 m).
Definition set_a3 (v : float) (m : aiMatrix3x3) : aiMatrix3x3 :=
  mkMatrix3x3 (a1 m) (a2 m) v (b1 m) (b2 m) (b3 m) (c1 m) (c2 m) (c3 m).
Definition set_b1 (v : float) (m : aiMatrix3x3) : aiMatrix3x3 :=
  mkMatrix3x3 (a1 m) (a2 m) (a3 m) v (b2 m) (b3 m) (c1 m) (c2 m) (c3 m).
Definition set_b2 (v : float) (m : aiMatrix3x3) : aiMatrix3x3 :=
  mkMatrix3x3 (a1 m) (a2 m) (a3 m) (b1 m) v (b3 m) (c1 m) (c2 m) (c3 m).
Definition set_b3 (v : float) (m : aiMatrix3x3) : aiMatrix3x3 :=
  mkMatrix3x3 (a1 m) (a2 m) (a3 m) (b1 m) (b2 m) v (c1 m) (c2 m) (c3 m).

(** The dot product of a row with a column, summed left to right. *)
Definition dot3 (r1 r2 r3 k1 k2 k3 : float) : float :=
  F32.add (F32.add (F32.mul r1 k1) (F32.mul r2 k2)) (F32.mul r3 k3).

(** Modelled from the spec: [aiMatrix3x3::operator*=], the
    right-multiplication [this = this * m] of the spec's matrix
    builder: entry (r, k) of the result is row r of [this] times
    column k of [m]. *)
Definition operator_mul_assign (this m : aiMatrix3x3) : aiMatrix3x3 :=
  mkMatrix3x3
    (dot3 (a1 this) (a2 this) (a3 this) (a1 m) (b1 m) (c1 m))
    (dot3 (a1 this) (a2 this) (a3 this) (a2 m) (b2 m) (c2 m))
    (dot3 (a1 this) (a2 this) (a3 this) (a3 m) (b3 m) (c3 m))
    (dot3 (b1 this) (b2 this) (b3 this) (a1 m) (b1 m) (c1 m))
    (dot3 (b1 this) (b2 this) (b3 this) (a2 m) (b2 m) (c2 m))
    (dot3 (b1 this) (b2 this) (b3 this) (a3 m) (b3 m) (c3 m))
    (dot3 (c1 this) (c2 this) (c3 this) (a1 m) (b1 m) (c1 m))
    (dot3 (c1 this) (c2 this) (c3 this) (a2 m) (b2 m) (c2 m))
    (dot3 (c1 this) (c2 this) (c3 this) (a3 m) (b3 m) (c3 m)).

(* ================================================================== *)
(** ** [IsUntransformed] and [GetMatrix] *)

Section Descriptor.

(** The macro [AI_DEG_TO_RAD] of [assimp/defs.h], followed by the
    cast to [float]; it is defined outside this header, which applies
    it to 0.5 degrees. *)
Variable AI_DEG_TO_RAD : float -> float.

(** [std::cos] and [std::sin] at type [float]. *)
Variable cosf sinf : float -> float.

(** [#define AI_TT_ROTATION_EPSILON ((float)AI_DEG_TO_RAD(0.5))] *)
Definition AI_TT_ROTATION_EPSILON : float := AI_DEG_TO_RAD (F32.lit 5 10).

(** [STransformVecInfo::IsUntransformed] *)
Definition IsUntransformed (this : STransformVecInfo) : bool :=
  F32.eqb F32.one (x (mScaling this))
  && F32.eqb F32.one (y (mScaling this))
  && negb (F32.to_bool (x (mTranslation this)))
  && negb (F32.to_bool (y (mTranslation this)))
  && F32.ltb (mRotation this) AI_TT_ROTATION_EPSILON.

(** [STransformVecInfo::GetMatrix]; the reference parameter [mOut]
    is passed in and the matrix left in it is returned. *)
Definition GetMatrix (this : STransformVecInfo) (mOut : aiMatrix3x3)
  : aiMatrix3x3 :=
  let mOut := aiMatrix3x3_default in
  let mOut :=
    if F32.neb F32.one (x (mScaling this))
       || F32.neb F32.one (y (mScaling this))
    then
      let mScale := aiMatrix3x3_default in
      let mScale := set_a1 (x (mScaling this)) mScale in
      let mScale := set_b2 (y (mScaling this)) mScale in
      mScale
    else mOut in
  let mOut :=
    if F32.to_bool (mRotation this)
    then
      let mRot := aiMatrix3x3_default in
      let mRot := set_b2 (cosf (mRotation this)) mRot in
      let mRot := set_a1 (b2 mRot) mRot in
      let mRot := set_b1 (sinf (mRotation this)) mRot in
      let mRot := set_a2 (b1 mRot) mRot in
      let mRot := set_a2 (F32.neg (a2 mRot)) mRot in
      operator_mul_assign mOut mRot
    else mOut in
  let mOut :=
    if F32.to_bool (x (mTranslation this))
       || F32.to_bool (y (mTranslation this))
    then
      let mTrans := aiMatrix3x3_default in
      let mTrans := set_a3 (x (mTranslation this)) mTrans in
      let mTrans := set_b3 (y (mTranslation this)) mTrans in
      operator_mul_assign mOut mTrans
    else mOut in
  mOut.

End Descriptor.

(* ================================================================== *)
(** ** Member assignments and reference definitions *)

(** Assignments to single members of a descriptor. *)
Definition with_uvIndex (u : uint) (t : STransformVecInfo) : STransformVecInfo :=
  mkSTransformVecInfo (base t) u (mapU t) (mapV t) (lockedPos t) (updateList t).

Definition with_maps (mu mv : aiTextureMapMode) (t : STransformVecInfo)
  : STransformVecInfo :=
  mkSTransformVecInfo (base t) (uvIndex t) mu mv (lockedPos t) (updateList t).

Definition with_lockedPos (p : uint) (t : STransformVecInfo) : STransformVecInfo :=
  mkSTransformVecInfo (base t) (uvIndex t) (mapU t) (mapV t) p (updateList t).

Definition with_updateList (l : list TTUpdateInfo) (t : STransformVecInfo)
  : STransformVecInfo :=
  mkSTransformVecInfo (base t) (uvIndex t) (mapU t) (mapV t) (lockedPos t) l.

Definition with_base (b : aiUVTransform) (t : STransformVecInfo) : STransformVecInfo :=
  mkSTransformVecInfo b (uvIndex t) (mapU t) (mapV t) (lockedPos t) (updateList t).

Definition with_mTranslation (v : aiVector2D) (t : STransformVecInfo)
  : STransformVecInfo :=
  with_base (mkUVTransform v (mScaling t) (mRotation t)) t.

Definition with_mScaling (v : aiVector2D) (t : STransformVecInfo)
  : STransformVecInfo :=
  with_base (mkUVTransform (mTranslation t) v (mRotation t)) t.

Definition with_mRotation (r : float) (t : STransformVecInfo) : STransformVecInfo :=
  with_base (mkUVTransform (mTranslation t) (mScaling t) r) t.

(** A float that compares equal to zero: one of the two signed zeros. *)
Definition is_zero (v : float) : Prop := exists s, v = S754_zero s.

(** One component within the tolerance of [operator==]: the absolute
    difference is at most [epsilon], or the difference is not a
    number. *)
Definition within_tolerance (u v : float) : bool :=
  F32.leb (F32.fabs (F32.sub u v)) epsilon || F32.is_nan (F32.sub u v).

(** The three factors of the composed matrix, written out. *)
Definition scale_matrix (t : STransformVecInfo) : aiMatrix3x3 :=
  mkMatrix3x3 (x (mScaling t)) F32.zero F32.zero
              F32.zero (y (mScaling t)) F32.zero
              F32.zero F32.zero F32.one.

Definition rotation_matrix (cosf sinf : float -> float) (t : STransformVecInfo)
  : aiMatrix3x3 :=
  mkMatrix3x3 (cosf (mRotation t)) (F32.neg (sinf (mRotation t))) F32.zero
              (sinf (mRotation t)) (cosf (mRotation t)) F32.zero
              F32.zero F32.zero F32.one.

Definition translation_matrix (t : STransformVecInfo) : aiMatrix3x3 :=
  mkMatrix3x3 F32.one F32.zero (x (mTranslation t))
              F32.zero F32.one (y (mTranslation t))
              F32.zero F32.zero F32.one.

(** *** Concrete instances of the external functions

    Used to run the definitions on examples: the conversion factor
    pi/180 rounded to binary32, and short Taylor polynomials standing
    for the cosine and the sine of the C library. *)
Definition deg_to_rad (v : float) : float :=
  F32.mul v (F32.lit 174532925 10000000000).

Definition cos_poly (v : float) : float :=
  let v2 := F32.mul v v in
  F32.add (F32.sub F32.one (F32.div v2 (F32.of_Z 2)))
          (F32.div (F32.mul v2 v2) (F32.of_Z 24)).

Definition sin_poly (v : float) : float :=
  F32.sub v (F32.div (F32.mul (F32.mul v v) v) (F32.of_Z 6)).

(** *** Sample descriptors *)

(** A descriptor reading coordinate channel 1, transform untouched. *)
Definition sample_channel1 : STransformVecInfo :=
  with_uvIndex 1 STransformVecInfo_default.

(** Translation (0.05, 0): its distance to the default translation is
    the tolerance itself. *)
Definition sample_at_tolerance : STransformVecInfo :=
  with_mTranslation (mkVector2D (F32.lit 5 100) F32.zero)
                    STransformVecInfo_default.

(** Rotations of 0.04 and 0.08 radians. *)
Definition sample_rot004 : STransformVecInfo :=
  with_mRotation (F32.lit 4 100) STransformVecInfo_default.
Definition sample_rot008 : STransformVecInfo :=
  with_mRotation (F32.lit 8 100) STransformVecInfo_default.

(** A rotation of minus one radian. *)
Definition sample_rot_minus1 : STransformVecInfo :=
  with_mRotation (F32.of_Z (-1)) STransformVecInfo_default.

(** A rotation of 0.02 radians, a little more than one degree. *)
Definition sample_rot002 : STransformVecInfo :=
  with_mRotation (F32.lit 2 100) STransformVecInfo_default.

(** Scale (2, 3), rotation 0.5, translation (0.25, -1). *)
Definition sample_full : STransformVecInfo :=
  with_mScaling (mkVector2D (F32.of_Z 2) (F32.of_Z 3))
    (with_mRotation (F32.lit 5 10)
       (with_mTranslation (mkVector2D (F32.lit 25 100) (F32.of_Z (-1)))
          STransformVecInfo_default)).

(** The same transform on another slot: channel 3, clamped and
    mirrored, with a destination already locked and one shortcut. *)
Definition sample_full_other : STransformVecInfo :=
  with_updateList [TTUpdateInfo_default]
    (with_lockedPos 2
       (with_maps aiTextureMapMode_Clamp aiTextureMapMode_Mirror
          (with_uvIndex 3 sample_full))).

(* ================================================================== *)
(** ** The pass [TextureTransformStep::Execute]

    The header declares [Execute] and leaves its body to the
    implementation file.  The pass is modelled from the specification
    of the step: collector, merger, allocator, matrix builder and
    patcher, run in this order over the materials of one scene.  The
    comparison, the identity test and the matrix composition it uses
    are the ones of the header, embedded above. *)

(** Modelled from the spec: a texture slot of a material, missing from
    this file ([assimp/material.h] keeps it as material properties).
    A slot is identified by its texture semantic and its index within
    that semantic; it stores the coordinate channel it reads, its UV
    transform when it has one, and the two mapping modes. *)
Record TextureSlot : Type := mkTextureSlot {
  slotSemantic : uint;
  slotIndex : uint;
  slotChannel : uint;
  slotTransform : option aiUVTransform;
  slotMapU : aiTextureMapMode;
  slotMapV : aiTextureMapMode
}.

(** Modelled from the spec: the part of [aiScene] that the pass reads
    and writes.  Each material is the list of its texture slots.
    [mNumUVChannels] counts the coordinate channels of the mesh that
    are populated with data, so the highest populated index is one
    less; [mUVTransforms] holds the matrix stored per destination
    channel. *)
Record aiScene : Type := mkScene {
  mMaterials : list (list TextureSlot);
  mNumUVChannels : uint;
  mUVTransforms : gmap Z aiMatrix3x3
}.

(** Modelled from the spec: the destination of a cluster, the tagged
    value that the spec puts in the place of the sentinels of
    [lockedPos]. *)
Inductive DestinationState : Type :=
| Unresolved
| ReuseSource
| Assigned (channelIndex : uint).

(** Modelled from the spec: a cluster, its representative (whose
    [updateList] collects the shortcuts of all merged descriptors)
    together with its destination. *)
Record Cluster : Type := mkCluster {
  representative : STransformVecInfo;
  destinationState : DestinationState
}.

(** Modelled from the spec: the two failures of the pass, exhaustion
    of the channel indices and a cluster left unresolved at patch
    time. *)
Inductive StepFailure : Type :=
| ChannelIndexExhausted
| UnresolvedCluster.

(** Modelled from the spec: the result of a component that can fail,
    either a value or the failure that aborts the pass. *)
Inductive Outcome (A : Type) : Type :=
| Done (a : A)
| Failed (e : StepFailure).
Arguments Done {A} a.
Arguments Failed {A} e.

#[export] Instance Outcome_ret : MRet Outcome := fun A a => Done a.
#[export] Instance Outcome_bind : MBind Outcome := fun A B f m =>
  match m with
  | Done a => f a
  | Failed e => Failed e
  end.

(** Modelled from the spec: the rewrite of the coordinate-channel
    field of a slot. *)
Definition set_slotChannel (v : uint) (sl : TextureSlot) : TextureSlot :=
  mkTextureSlot (slotSemantic sl) (slotIndex sl) v
                (slotTransform sl) (slotMapU sl) (slotMapV sl).

(** Modelled from the spec: the collector builds the descriptor of
    slot [j] of material [i], with one shortcut back to the slot; the
    direct handle is the place of the slot in its material.  A slot
    without a transform is read as the default transform. *)
Definition describe (i j : nat) (sl : TextureSlot) : STransformVecInfo :=
  mkSTransformVecInfo
    (default aiUVTransform_default (slotTransform sl))
    (slotChannel sl) (slotMapU sl) (slotMapV sl)
    AI_TT_UV_IDX_LOCK_NONE
    [mkTTUpdateInfo (Some j) (Some i) (slotSemantic sl) (slotIndex sl)].

(** Modelled from the spec: the collector makes one descriptor per
    slot, in the order of the materials and of their slots; the scene
    is left as it is. *)
Definition TransformCollector (materials : list (list TextureSlot))
  : list STransformVecInfo :=
  concat (imap (fun i m => imap (describe i) m) materials).

(** Modelled from the spec: the equality test of the merger, same
    source channel and [operator==]. *)
Definition same_cluster (rep info : STransformVecInfo) : bool :=
  (uvIndex rep =? uvIndex info) && operator_eq rep info.

(** Modelled from the spec: the merger scans the representatives in
    order; on the first match the shortcuts of the new descriptor are
    appended to the cluster and the descriptor is dropped, without a
    match it becomes a new representative at the end of the list. *)
Fixpoint merge_descriptor (info : STransformVecInfo)
         (clusters : list STransformVecInfo) : list STransformVecInfo :=
  match clusters with
  | [] => [info]
  | rep :: rest =>
      if same_cluster rep info
      then with_updateList (updateList rep ++ updateList info) rep :: rest
      else rep :: merge_descriptor info rest
  end.

(** Modelled from the spec: the merger takes the descriptors in the
    order of the collector, starting without clusters. *)
Definition EquivalenceMerger (descriptors : list STransformVecInfo)
  : list STransformVecInfo :=
  foldl (fun clusters info => merge_descriptor info clusters) [] descriptors.

(** Modelled from the spec: the slot of a material with the given
    semantic and index, which the patcher looks up for a shortcut
    without a direct handle. *)
Fixpoint find_slot (sem idx : uint) (m : list TextureSlot) : option nat :=
  match m with
  | [] => None
  | sl :: rest =>
      if (slotSemantic sl =? sem) && (slotIndex sl =? idx)
      then Some 0%nat
      else S <$> find_slot sem idx rest
  end.

(** Modelled from the spec: the patcher rewrites the channel
    reference of the slot a shortcut points to. *)
Definition patch_shortcut (v : uint) (materials : list (list TextureSlot))
           (u : TTUpdateInfo) : list (list TextureSlot) :=
  match mat u with
  | None => materials
  | Some i =>
      match directShortcut u with
      | Some j => alter (alter (set_slotChannel v) j) i materials
      | None =>
          match materials !! i ≫= find_slot (semantic u) (index u) with
          | Some j => alter (alter (set_slotChannel v) j) i materials
          | None => materials
          end
      end
  end.

Section Pass.

(** The external functions of the header, as above. *)
Variable AI_DEG_TO_RAD : float -> float.
Variable cosf sinf : float -> float.

(** Modelled from the spec: the size of the bounded index space of
    coordinate channels, for which the spec gives no number. *)
Variable maxChannels : uint.

(** Modelled from the spec: in the allocator identity clusters reuse
    their source channel; every other cluster takes the next value of
    a counter, and the pass fails when that value leaves the index
    space. *)
Fixpoint allocate (counter : uint) (clusters : list STransformVecInfo)
  : Outcome (list Cluster) :=
  match clusters with
  | [] => Done []
  | rep :: rest =>
      if IsUntransformed AI_DEG_TO_RAD rep
      then rest' ← allocate counter rest;
           Done (mkCluster rep ReuseSource :: rest')
      else if counter <? maxChannels
      then rest' ← allocate (counter + 1) rest;
           Done (mkCluster rep (Assigned counter) :: rest')
      else Failed ChannelIndexExhausted
  end.

(** Modelled from the spec: the counter of the allocator starts above
    the highest populated channel index. *)
Definition ChannelAllocator (s : aiScene) (clusters : list STransformVecInfo)
  : Outcome (list Cluster) :=
  allocate (mNumUVChannels s) clusters.

(** Modelled from the spec: the matrix builder composes the matrix of
    a cluster with an assigned destination. *)
Definition MatrixBuilder (c : Cluster) : option aiMatrix3x3 :=
  match destinationState c with
  | Assigned _ =>
      Some (GetMatrix cosf sinf (representative c) aiMatrix3x3_default)
  | _ => None
  end.

(** Modelled from the spec: the channel every slot of the cluster is
    pointed to by the patcher; an unresolved cluster is a fault. *)
Definition destinationChannel (c : Cluster) : Outcome uint :=
  match destinationState c with
  | Unresolved => Failed UnresolvedCluster
  | ReuseSource => Done (uvIndex (representative c))
  | Assigned n => Done n
  end.

(** Modelled from the spec: the patcher patches every shortcut of
    one cluster and stores its matrix, once, under the destination
    channel. *)
Definition patch_cluster (s : aiScene) (cm : Cluster * option aiMatrix3x3)
  : Outcome aiScene :=
  v ← destinationChannel cm.1;
  Done (mkScene
          (foldl (patch_shortcut v) (mMaterials s)
                 (updateList (representative cm.1)))
          (mNumUVChannels s)
          (match cm.2 with
           | Some m => <[v := m]> (mUVTransforms s)
           | None => mUVTransforms s
           end)).

(** Modelled from the spec: the patcher walks the clusters in order
    and stops at the first fault. *)
Fixpoint MaterialPatcher (s : aiScene)
         (clusters : list (Cluster * option aiMatrix3x3)) : Outcome aiScene :=
  match clusters with
  | [] => Done s
  | cm :: rest => s' ← patch_cluster s cm; MaterialPatcher s' rest
  end.

(** Modelled from the spec: [TextureTransformStep::Execute], the five
    components in sequence.  [Done] carries the scene as the pass
    leaves it; on [Failed] the pass is aborted. *)
Definition Execute (s : aiScene) : Outcome aiScene :=
  let descriptors := TransformCollector (mMaterials s) in
  let clusters := EquivalenceMerger descriptors in
  allocated ← ChannelAllocator s clusters;
  MaterialPatcher s (map (fun c => (c, MatrixBuilder c)) allocated).

End Pass.

(** Modelled from the spec: the invariant of the data model on the
    source channel of a slot, an index into the set of coordinate
    channels of the mesh.  Every slot reads a populated coordinate
    channel. *)
Definition channels_populated (s : aiScene) : Prop :=
  Forall (Forall (fun sl => slotChannel sl < mNumUVChannels s)) (mMaterials s).

(** *** Sample scenes *)

Definition transform_scale (sx sy : float) : aiUVTransform :=
  mkUVTransform (mkVector2D F32.zero F32.zero) (mkVector2D sx sy) F32.zero.

Definition transform_shift (tx ty : float) : aiUVTransform :=
  mkUVTransform (mkVector2D tx ty) (mkVector2D F32.one F32.one) F32.zero.

Definition slot_of (sem ch : uint) (tr : aiUVTransform) : TextureSlot :=
  mkTextureSlot sem 0 ch (Some tr) aiTextureMapMode_Wrap aiTextureMapMode_Wrap.

(** Scenario A of the spec: a diffuse and a specular slot of one
    material, both on channel 0 with scale (2,2); one populated
    channel. *)
Definition scene_A : aiScene :=
  mkScene [[slot_of 1 0 (transform_scale (F32.of_Z 2) (F32.of_Z 2));
            slot_of 2 0 (transform_scale (F32.of_Z 2) (F32.of_Z 2))]]
          1 ∅.

(** Scenario B of the spec: one slot with the default transform. *)
Definition scene_B : aiScene :=
  mkScene [[slot_of 1 0 aiUVTransform_default]] 1 ∅.

(** A slot on channel 0 that stores no transform at all. *)
Definition scene_missing : aiScene :=
  mkScene [[mkTextureSlot 1 0 0 None
                          aiTextureMapMode_Clamp aiTextureMapMode_Clamp]]
          1 ∅.

(** Scenario C of the spec: scale (2,2) against scale (2.1,2.1). *)
Definition scene_C : aiScene :=
  mkScene [[slot_of 1 0 (transform_scale (F32.of_Z 2) (F32.of_Z 2));
            slot_of 2 0 (transform_scale (F32.lit 21 10) (F32.lit 21 10))]]
          1 ∅.

(** A scene outside the data model: one populated channel, and a
    first slot that reads channel 1.  An untransformed slot on
    channel 1, then on channel 0 a slot shifted by (0.01, 0) and a
    slot scaled by (2,2). *)
Definition scene_unpopulated : aiScene :=
  mkScene [[slot_of 1 1 aiUVTransform_default;
            slot_of 2 0 (transform_shift (F32.lit 1 100) F32.zero);
            slot_of 3 0 (transform_scale (F32.of_Z 2) (F32.of_Z 2))]]
          1 ∅.

(** The same scene after one run of the pass: the shifted slot reads
    the new channel 1, the scaled slot the new channel 2. *)
Definition scene_unpopulated_once : aiScene :=
  mkScene [[slot_of 1 1 aiUVTransform_default;
            slot_of 2 1 (transform_shift (F32.lit 1 100) F32.zero);
            slot_of 3 2 (transform_scale (F32.of_Z 2) (F32.of_Z 2))]]
          1
          (<[1 := mkMatrix3x3 F32.one F32.zero (F32.lit 1 100)
                              F32.zero F32.one F32.zero
                              F32.zero F32.zero F32.one]>
             (<[2 := mkMatrix3x3 (F32.of_Z 2) F32.zero F32.zero
                                 F32.zero (F32.of_Z 2) F32.zero
                                 F32.zero F32.zero F32.one]> ∅)).

(** And after a second run: the scaled slot reads channel 1, which
    holds its matrix. *)
Definition scene_unpopulated_twice : aiScene :=
  mkScene [[slot_of 1 1 aiUVTransform_default;
            slot_of 2 1 (transform_shift (F32.lit 1 100) F32.zero);
            slot_of 3 1 (transform_scale (F32.of_Z 2) (F32.of_Z 2))]]
          1
          (<[1 := mkMatrix3x3 (F32.of_Z 2) F32.zero F32.zero
                              F32.zero (F32.of_Z 2) F32.zero
                              F32.zero F32.zero F32.one]>
             (<[2 := mkMatrix3x3 (F32.of_Z 2) F32.zero F32.zero
                                 F32.zero (F32.of_Z 2) F32.zero
                                 F32.zero F32.zero F32.one]> ∅)).

Definition slot_channels (s : aiScene) : list (list uint) :=
  map (map slotChannel) (mMaterials s).

Definition outcome_channels (o : Outcome aiScene) : option (list (list uint)) :=
  match o with
  | Done s => Some (slot_channels s)
  | Failed _ => None
  end.

Definition outcome_matrix (k : Z) (o : Outcome aiScene) : option aiMatrix3x3 :=
  match o with
  | Done s => mUVTransforms s !! k
  | Failed _ => None
  end.

(** Scenario C after the pass: the two slots read the new channels 1
    and 2, which hold the two scale matrices. *)
Definition scene_C_done : aiScene :=
  mkScene [[slot_of 1 1 (transform_scale (F32.of_Z 2) (F32.of_Z 2));
            slot_of 2 2 (transform_scale (F32.lit 21 10) (F32.lit 21 10))]]
          1
          (<[1 := mkMatrix3x3 (F32.of_Z 2) F32.zero F32.zero
                              F32.zero (F32.of_Z 2) F32.zero
                              F32.zero F32.zero F32.one]>
             (<[2 := mkMatrix3x3 (F32.lit 21 10) F32.zero F32.zero
                                 F32.zero (F32.lit 21 10) F32.zero
                                 F32.zero F32.zero F32.one]> ∅)).

(* ================================================================== *)
(** ** The plan of a pass

    What the allocator and the patcher do to a list of clusters,
    written as functions of the representatives: these definitions are
    used to state and prove the properties of [Execute]. *)

Section Plan.

Variable AI_DEG_TO_RAD : float -> float.
Variable cosf sinf : float -> float.

(** The channel given to a representative met with the counter at
    [counter], and the counter after it. *)
Definition destination_of (counter : uint) (rep : STransformVecInfo) : uint :=
  if IsUntransformed AI_DEG_TO_RAD rep then uvIndex rep else counter.

Definition counter_after (counter : uint) (rep : STransformVecInfo) : uint :=
  if IsUntransformed AI_DEG_TO_RAD rep then counter else counter + 1.

(** The channel written through every shortcut, in patch order. *)
Fixpoint channel_writes (counter : uint) (clusters : list STransformVecInfo)
  : list (TTUpdateInfo * uint) :=
  match clusters with
  | [] => []
  | rep :: rest =>
      map (fun u => (u, destination_of counter rep)) (updateList rep)
      ++ channel_writes (counter_after counter rep) rest
  end.

(** The matrix stored per assigned channel, in patch order. *)
Fixpoint matrix_writes (counter : uint) (clusters : list STransformVecInfo)
  : list (uint * aiMatrix3x3) :=
  match clusters with
  | [] => []
  | rep :: rest =>
      if IsUntransformed AI_DEG_TO_RAD rep
      then matrix_writes counter rest
      else (counter, GetMatrix cosf sinf rep aiMatrix3x3_default)
             :: matrix_writes (counter + 1) rest
  end.

(** The clusters once every representative reads its destination. *)
Fixpoint redirect (counter : uint) (clusters : list STransformVecInfo)
  : list STransformVecInfo :=
  match clusters with
  | [] => []
  | rep :: rest =>
      with_uvIndex (destination_of counter rep) rep
        :: redirect (counter_after counter rep) rest
  end.

(** The destination of the cluster that a descriptor joins or
    founds. *)
Fixpoint joined_channel (counter : uint) (clusters : list STransformVecInfo)
         (info : STransformVecInfo) : uint :=
  match clusters with
  | [] => destination_of counter info
  | rep :: rest =>
      if same_cluster rep info
      then destination_of counter rep
      else joined_channel (counter_after counter rep) rest info
  end.

(** The descriptors once each of them reads the destination of its
    cluster, the clusters growing as the merger goes. *)
Fixpoint redirect_descriptors (seed : uint) (clusters : list STransformVecInfo)
         (descriptors : list STransformVecInfo) : list STransformVecInfo :=
  match descriptors with
  | [] => []
  | info :: rest =>
      with_uvIndex (joined_channel seed clusters info) info
        :: redirect_descriptors seed (merge_descriptor info clusters) rest
  end.

End Plan.

(** The place a shortcut points to: material and slot. *)
Definition shortcut_place (u : TTUpdateInfo) : option nat * option nat :=
  (mat u, directShortcut u).

(** The channel of the slot at place [(i, j)] after a list of writes,
    [c] being its channel before. *)
Definition channel_after (ws : list (TTUpdateInfo * uint)) (i j : nat) (c : uint)
  : uint :=
  foldl (fun c w => if decide (shortcut_place w.1 = (Some i, Some j))
                    then w.2 else c) c ws.

(** The materials with the channel of every slot recomputed from its
    place and its former channel. *)
Definition retarget (g : nat -> nat -> uint -> uint)
           (materials : list (list TextureSlot)) : list (list TextureSlot) :=
  imap (fun i m =>
          imap (fun j sl => set_slotChannel (g i j (slotChannel sl)) sl) m)
       materials.

Definition patch_write (materials : list (list TextureSlot))
           (w : TTUpdateInfo * uint) : list (list TextureSlot) :=
  patch_shortcut w.2 materials w.1.

Definition store_matrix (tr : gmap Z aiMatrix3x3) (w : uint * aiMatrix3x3)
  : gmap Z aiMatrix3x3 :=
  <[w.1 := w.2]> tr.

(** The place of the slot a collected descriptor stands for. *)
Definition descriptor_place (t : STransformVecInfo) : option nat * option nat :=
  match updateList t with
  | u :: _ => shortcut_place u
  | [] => (None, None)
  end.

(** A descriptor with its source channel recomputed like the channel
    of its slot under [retarget]. *)
Definition redirect_by (g : nat -> nat -> uint -> uint) (t : STransformVecInfo)
  : STransformVecInfo :=
  match descriptor_place t with
  | (Some i, Some j) => with_uvIndex (g i j (uvIndex t)) t
  | _ => t
  end.

(** A descriptor as the collector makes it: one shortcut, with a
    material and a direct handle. *)
Definition collected (t : STransformVecInfo) : Prop :=
  exists u i j, updateList t = [u] /\ shortcut_place u = (Some i, Some j).

Definition direct (u : TTUpdateInfo) : Prop :=
  exists i j, shortcut_place u = (Some i, Some j).

(** A map over the elements of a list of lists that sees the place of
    every element; the result is flattened. *)
Definition imap2 {A B : Type} (f : nat -> nat -> A -> B) (ls : list (list A))
  : list B :=
  concat (imap (fun i l => imap (f i) l) ls).

(* ================================================================== *)
(** ** Further reference definitions *)

(** A float that is a number and not an infinity. *)
Definition is_finite (v : float) : bool :=
  match v with
  | S754_zero _ | S754_finite _ _ _ => true
  | _ => false
  end.

(** A binary32 number: a zero, or a finite float whose mantissa and
    exponent are those of the binary32 format. *)
Definition is_number (v : float) : bool := F32.valid v && is_finite v.

(** The float with a negative zero read as the positive zero: what
    adding [+0] to it gives. *)
Definition unsigned_zero (v : float) : float :=
  match v with
  | S754_zero _ => S754_zero false
  | _ => v
  end.

(** The transform all of whose components are NaN. *)
Definition nan_transform : aiUVTransform :=
  mkUVTransform (mkVector2D F32.nan F32.nan)
                (mkVector2D F32.nan F32.nan)
                F32.nan.

Definition sample_nan : STransformVecInfo :=
  with_base nan_transform STransformVecInfo_default.

(** A descriptor shifted by (0.01, 0). *)
Definition shifted (t : STransformVecInfo) : STransformVecInfo :=
  with_mTranslation (mkVector2D (F32.lit 1 100) F32.zero) t.

(** Scale (2, 3) alone, translation (0.25, -1) alone, rotation 0.5
    alone, and scale (2, 3) with translation (0.25, -1). *)
Definition sample_scale : STransformVecInfo :=
  with_mScaling (mkVector2D (F32.of_Z 2) (F32.of_Z 3)) STransformVecInfo_default.

Definition sample_shift : STransformVecInfo :=
  with_mTranslation (mkVector2D (F32.lit 25 100) (F32.of_Z (-1)))
                    STransformVecInfo_default.

Definition sample_rot05 : STransformVecInfo :=
  with_mRotation (F32.lit 5 10) STransformVecInfo_default.

Definition sample_scale_shift : STransformVecInfo :=
  with_mTranslation (mkVector2D (F32.lit 25 100) (F32.of_Z (-1))) sample_scale.

(** Scale (2, 3) with a rotation of 0.5 radians. *)
Definition sample_scale_rot : STransformVecInfo :=
  with_mRotation (F32.lit 5 10) sample_scale.

(** A rotation of 0.005 radians, below half a degree. *)
Definition sample_rot0005 : STransformVecInfo :=
  with_mRotation (F32.lit 5 1000) STransformVecInfo_default.

(* ================================================================== *)
(** * Properties *)

(** ** Facts about binary32 comparisons *)

Module F32Facts.

Lemma compare_antisym (u v : float) :
  SFcompare v u = option_map CompOpp (SFcompare u v).
Proof.
  destruct u as [su| su | | su mu eu], v as [sv | sv | | sv mv ev];
    simpl; try reflexivity;
    try (destruct su; reflexivity);
    try (destruct sv; reflexivity);
    try (destruct su, sv; reflexivity).
  pose proof (Pos.compare_antisym mu mv) as Hm. unfold Pos.compare in Hm.
  destruct su, sv; simpl; try reflexivity;
    rewrite (Z.compare_antisym eu ev);
    destruct (eu ?= ev); simpl; try reflexivity;
    rewrite Hm; try rewrite CompOpp_involutive; reflexivity.
Qed.

(** [x > e] fails exactly when [x <= e] holds or the two are
    unordered. *)
Lemma gtb_false_iff (u e : float) :
  F32.gtb u e = false <-> F32.leb u e = true \/ SFcompare u e = None.
Proof.
  unfold F32.gtb, F32.leb, SFltb, SFleb.
  rewrite (compare_antisym u e).
  destruct (SFcompare u e) as [[ | | ] | ]; simpl; split; intros H;
    auto; try discriminate; destruct H; discriminate.
Qed.

Lemma compare_None_iff (u e : float) :
  SFcompare u e = None <-> F32.is_nan u = true \/ F32.is_nan e = true.
Proof.
  destruct u as [su| su | | su mu eu], e as [sv | sv | | sv mv ev];
    simpl; split; intros H; auto; try discriminate;
    try (destruct H; discriminate).
Qed.

Lemma fabs_nan_iff (u : float) :
  F32.is_nan (F32.fabs u) = F32.is_nan u.
Proof. destruct u; reflexivity. Qed.

(** The difference of a float with itself is a zero or NaN. *)
Lemma sub_diag (u : float) :
  F32.sub u u = S754_zero false \/ F32.sub u u = S754_nan.
Proof.
  destruct u as [s | s | | s m e]; simpl.
  - left. destruct s; reflexivity.
  - right. destruct s; reflexivity.
  - right. reflexivity.
  - left. unfold F32.sub, SFsub. rewrite Z.sub_diag. reflexivity.
Qed.

Lemma sub_diag_within (u : float) (e : float) :
  F32.gtb F32.zero e = false ->
  F32.gtb (F32.fabs (F32.sub u u)) e = false.
Proof.
  intros He. destruct (sub_diag u) as [-> | ->]; simpl.
  - exact He.
  - unfold F32.gtb, SFltb. rewrite (compare_antisym S754_nan e).
    reflexivity.
Qed.

(** [1.0f == v] holds for the number one only. *)
Lemma eqb_one_iff (v : float) : F32.eqb F32.one v = true <-> v = F32.one.
Proof.
  split; [ | intros ->; reflexivity].
  change F32.one with (S754_finite false 8388608 (-23)).
  destruct v as [s | s | | s m e]; try discriminate;
    try (destruct s; discriminate).
  unfold F32.eqb, SFeqb, SFcompare.
  destruct s; [discriminate | ].
  destruct (Z.compare_spec (-23) e) as [<- | | ]; try discriminate.
  fold (Pos.compare 8388608 m).
  destruct (Pos.compare_spec 8388608 m) as [<- | | ]; try discriminate.
  reflexivity.
Qed.

(** [v == 0] holds for the two zeros only. *)
Lemma eqb_zero_iff (v : float) :
  F32.eqb v F32.zero = true <-> exists s, v = S754_zero s.
Proof.
  destruct v as [s | s | | s m e]; simpl; split; intros H;
    try discriminate; try (destruct H; discriminate);
    try (destruct s; discriminate); eauto.
Qed.

Lemma to_bool_false_iff (v : float) :
  F32.to_bool v = false <-> exists s, v = S754_zero s.
Proof.
  unfold F32.to_bool, F32.neb. rewrite negb_false_iff.
  apply eqb_zero_iff.
Qed.

End F32Facts.

(* ================================================================== *)
(** ** The default descriptor *)

(** C10: a default-constructed [STransformVecInfo] has [uvIndex] 0,
    both mapping modes [aiTextureMapMode_Wrap], an empty [updateList],
    and [lockedPos] equal to the sentinel [AI_TT_UV_IDX_LOCK_NONE]
    (0xeeeeeeee), which differs from [AI_TT_UV_IDX_LOCK_TBD]
    (0xffffffff). *)
Theorem default_descriptor_fields :
  uvIndex STransformVecInfo_default = 0
  /\ mapU STransformVecInfo_default = aiTextureMapMode_Wrap
  /\ mapV STransformVecInfo_default = aiTextureMapMode_Wrap
  /\ updateList STransformVecInfo_default = []
  /\ lockedPos STransformVecInfo_default = AI_TT_UV_IDX_LOCK_NONE
  /\ AI_TT_UV_IDX_LOCK_NONE = 0xeeeeeeee
  /\ AI_TT_UV_IDX_LOCK_TBD = 0xffffffff
  /\ lockedPos STransformVecInfo_default <> AI_TT_UV_IDX_LOCK_TBD.
Proof.
  repeat split. unfold STransformVecInfo_default, lockedPos.
  unfold AI_TT_UV_IDX_LOCK_NONE, AI_TT_UV_IDX_LOCK_TBD. lia.
Qed.

(* ================================================================== *)
(** ** The tolerance comparison [operator==] *)

Lemma epsilon_value : epsilon = S754_finite false 13421773 (-28).
Proof. reflexivity. Qed.

Lemma epsilon_valid : F32.valid epsilon = true.
Proof. reflexivity. Qed.

(** The comparison reads the five transform components only. *)
Lemma operator_eq_base (a b a' b' : STransformVecInfo) :
  base a = base a' -> base b = base b' ->
  operator_eq a b = operator_eq a' b'.
Proof.
  intros Ha Hb. unfold operator_eq, mTranslation, mScaling, mRotation.
  rewrite Ha, Hb. reflexivity.
Qed.

Lemma operator_eq_refl (a : STransformVecInfo) : operator_eq a a = true.
Proof.
  unfold operator_eq.
  rewrite !F32Facts.sub_diag_within by reflexivity. reflexivity.
Qed.

(** Descriptors with the same transform components compare equal. *)
Lemma operator_eq_same_base (a b : STransformVecInfo) :
  base a = base b -> operator_eq a b = true.
Proof.
  intros H. rewrite (operator_eq_base a b a a eq_refl (eq_sym H)).
  apply operator_eq_refl.
Qed.

Lemma base_eq (a b : STransformVecInfo) :
  mScaling a = mScaling b -> mRotation a = mRotation b ->
  mTranslation a = mTranslation b -> base a = base b.
Proof.
  unfold mScaling, mRotation, mTranslation.
  destruct (base a), (base b); simpl; intros; subst; reflexivity.
Qed.

(** The test [fabs (u - v) > epsilon] fails exactly when the component
    is within tolerance. *)
Lemma gtb_epsilon_within (u v : float) :
  negb (F32.gtb (F32.fabs (F32.sub u v)) epsilon) = within_tolerance u v.
Proof.
  unfold within_tolerance.
  apply eq_true_iff_eq. rewrite negb_true_iff, orb_true_iff.
  rewrite F32Facts.gtb_false_iff, F32Facts.compare_None_iff.
  rewrite F32Facts.fabs_nan_iff.
  change (F32.is_nan epsilon) with false.
  intuition discriminate.
Qed.

(** C1, as the code has it: [operator==] does not read [uvIndex].  Its
    answer is unchanged when the source channel of either operand is
    replaced, and a descriptor compares equal to a copy of itself
    placed on any other source channel. *)
Theorem operator_eq_ignores_uvIndex (a b : STransformVecInfo) (u v : uint) :
  operator_eq (with_uvIndex u a) (with_uvIndex v b) = operator_eq a b
  /\ operator_eq (with_uvIndex u a) (with_uvIndex v a) = true.
Proof.
  split.
  - apply operator_eq_base; reflexivity.
  - apply operator_eq_same_base. reflexivity.
Qed.

(** C1, refuted as stated: the default descriptor on channel 0 and the
    default descriptor on channel 1 have different source channels and
    compare equal. *)
Lemma operator_eq_across_channels :
  uvIndex STransformVecInfo_default <> uvIndex sample_channel1
  /\ operator_eq STransformVecInfo_default sample_channel1 = true.
Proof. split; [discriminate | reflexivity]. Qed.

(** C3, as the code has it: [operator==] answers true exactly when
    each of the five components is within tolerance, that is when its
    absolute difference is at most 0.05f, the bound included, or is
    not a number. *)
Theorem operator_eq_within_tolerance (a b : STransformVecInfo) :
  operator_eq a b =
    within_tolerance (x (mTranslation a)) (x (mTranslation b))
    && within_tolerance (y (mTranslation a)) (y (mTranslation b))
    && within_tolerance (x (mScaling a)) (x (mScaling b))
    && within_tolerance (y (mScaling a)) (y (mScaling b))
    && within_tolerance (mRotation a) (mRotation b).
Proof.
  rewrite <- !gtb_epsilon_within. unfold operator_eq.
  repeat match goal with
         | |- context [F32.gtb ?u epsilon] => destruct (F32.gtb u epsilon)
         end; reflexivity.
Qed.

(** C3, refuted as stated: a translation whose first component
    differs from the other one by the tolerance exactly, all other
    components equal, compares equal. *)
Lemma operator_eq_at_tolerance :
  F32.fabs (F32.sub (x (mTranslation sample_at_tolerance))
                    (x (mTranslation STransformVecInfo_default))) = epsilon
  /\ F32.ltb (F32.fabs (F32.sub (x (mTranslation sample_at_tolerance))
                                (x (mTranslation STransformVecInfo_default))))
             epsilon = false
  /\ operator_eq sample_at_tolerance STransformVecInfo_default = true.
Proof. repeat split. Qed.

(** C7: for two descriptors that agree on scale, rotation and
    translation, [operator==] answers the same, namely true, whatever
    mapping modes are put on either side. *)
Theorem operator_eq_ignores_wrap_modes
        (a b : STransformVecInfo) (mu mv mu' mv' : aiTextureMapMode) :
  mScaling a = mScaling b ->
  mRotation a = mRotation b ->
  mTranslation a = mTranslation b ->
  operator_eq (with_maps mu mv a) (with_maps mu' mv' b) = operator_eq a b
  /\ operator_eq (with_maps mu mv a) (with_maps mu' mv' b) = true.
Proof.
  intros Hs Hr Ht. split.
  - apply operator_eq_base; reflexivity.
  - apply operator_eq_same_base. simpl. apply base_eq; assumption.
Qed.

Lemma operator_eq_ignores_wrap_modes_witness :
  operator_eq
    (with_maps aiTextureMapMode_Clamp aiTextureMapMode_Decal sample_full)
    (with_maps aiTextureMapMode_Mirror aiTextureMapMode_Wrap sample_full_other)
  = operator_eq sample_full sample_full_other
  /\ operator_eq
       (with_maps aiTextureMapMode_Clamp aiTextureMapMode_Decal sample_full)
       (with_maps aiTextureMapMode_Mirror aiTextureMapMode_Wrap sample_full_other)
     = true.
Proof.
  apply (operator_eq_ignores_wrap_modes sample_full sample_full_other);
    reflexivity.
Defined.

(** The mapping modes never matter, also for unrelated transforms. *)
Lemma operator_eq_with_maps (a b : STransformVecInfo)
      (mu mv mu' mv' : aiTextureMapMode) :
  operator_eq (with_maps mu mv a) (with_maps mu' mv' b) = operator_eq a b.
Proof. apply operator_eq_base; reflexivity. Qed.

(** C8: the comparison is not transitive.  The default descriptor and
    its copies rotated by 0.04 and 0.08 radians agree on every field
    outside the transform; the first two compare equal, the last two
    compare equal, the first and the last do not.  A scan for the
    first representative equal to the middle one therefore stops at
    whichever of the two others was created first. *)
Theorem operator_eq_not_transitive :
  exists a b c : STransformVecInfo,
    (mRotation a = F32.zero /\ mRotation b = F32.lit 4 100
     /\ mRotation c = F32.lit 8 100)
    /\ (uvIndex a = uvIndex b /\ uvIndex b = uvIndex c)
    /\ (mapU a = mapU b /\ mapU b = mapU c)
    /\ (mapV a = mapV b /\ mapV b = mapV c)
    /\ (lockedPos a = lockedPos b /\ lockedPos b = lockedPos c)
    /\ (updateList a = updateList b /\ updateList b = updateList c)
    /\ operator_eq a b = true
    /\ operator_eq b c = true
    /\ operator_eq a c = false
    /\ List.find (fun rep => operator_eq rep b) [a; c] = Some a
    /\ List.find (fun rep => operator_eq rep b) [c; a] = Some c.
Proof.
  exists STransformVecInfo_default, sample_rot004, sample_rot008.
  repeat split.
Qed.

(* ================================================================== *)
(** ** The identity test [IsUntransformed] *)

(** For a rotation that is not negative, comparing the rotation and
    comparing its magnitude are the same test. *)
Lemma ltb_fabs_nonneg (r e : float) :
  F32.ltb r F32.zero = false ->
  F32.ltb (F32.fabs r) e = F32.ltb r e.
Proof.
  destruct r as [s | s | | s m ex]; simpl; intros H.
  - destruct e as [s' | s' | | s' m' e']; reflexivity.
  - destruct s; [discriminate | reflexivity].
  - reflexivity.
  - destruct s; [discriminate | reflexivity].
Qed.

Lemma vector_eq (v : aiVector2D) (p q : float) :
  v = mkVector2D p q <-> x v = p /\ y v = q.
Proof.
  destruct v as [vx vy]; simpl. split.
  - intros H; inversion H; auto.
  - intros [-> ->]; reflexivity.
Qed.

Section IdentityTest.

Variable AI_DEG_TO_RAD : float -> float.

(** C2, as the code has it: for a descriptor whose rotation is not
    negative, [IsUntransformed] answers true exactly when the scale
    is (1,1), both translation components compare equal to zero, and
    the magnitude of the rotation is strictly below
    [AI_TT_ROTATION_EPSILON], the constant that the header defines
    as half a degree converted to radians. *)
Theorem IsUntransformed_iff (t : STransformVecInfo) :
  F32.ltb (mRotation t) F32.zero = false ->
  (IsUntransformed AI_DEG_TO_RAD t = true <->
   mScaling t = mkVector2D F32.one F32.one
   /\ (is_zero (x (mTranslation t)) /\ is_zero (y (mTranslation t)))
   /\ F32.ltb (F32.fabs (mRotation t))
              (AI_TT_ROTATION_EPSILON AI_DEG_TO_RAD) = true).
Proof.
  intros Hr. unfold IsUntransformed.
  rewrite !andb_true_iff, !negb_true_iff.
  rewrite !F32Facts.eqb_one_iff, !F32Facts.to_bool_false_iff.
  rewrite (ltb_fabs_nonneg _ _ Hr), vector_eq.
  unfold is_zero. intuition.
Qed.

End IdentityTest.

Lemma IsUntransformed_iff_witness :
  F32.ltb (mRotation STransformVecInfo_default) F32.zero = false
  /\ (IsUntransformed deg_to_rad STransformVecInfo_default = true <->
      mScaling STransformVecInfo_default = mkVector2D F32.one F32.one
      /\ (is_zero (x (mTranslation STransformVecInfo_default))
          /\ is_zero (y (mTranslation STransformVecInfo_default)))
      /\ F32.ltb (F32.fabs (mRotation STransformVecInfo_default))
                 (AI_TT_ROTATION_EPSILON deg_to_rad) = true).
Proof.
  split; [reflexivity | ].
  apply (IsUntransformed_iff deg_to_rad STransformVecInfo_default).
  reflexivity.
Defined.

(** C2, refuted as stated, in both directions.  A rotation of minus
    one radian, scale and translation untouched, is classified as
    untransformed although its magnitude is one radian; this holds
    with the rotation tolerance put at 0.05 radians as well as at half
    a degree.  With half a degree as [AI_TT_ROTATION_EPSILON], a
    rotation of 0.02 radians has a magnitude below 0.05 radians and is
    not classified as untransformed, while it compares equal to the
    default transform under [operator==]. *)
Lemma IsUntransformed_not_magnitude :
  (mScaling sample_rot_minus1 = mkVector2D F32.one F32.one
   /\ mTranslation sample_rot_minus1 = mkVector2D F32.zero F32.zero
   /\ F32.ltb (F32.fabs (mRotation sample_rot_minus1)) epsilon = false
   /\ IsUntransformed (fun _ => epsilon) sample_rot_minus1 = true
   /\ IsUntransformed deg_to_rad sample_rot_minus1 = true)
  /\ (mScaling sample_rot002 = mkVector2D F32.one F32.one
      /\ mTranslation sample_rot002 = mkVector2D F32.zero F32.zero
      /\ F32.ltb (F32.fabs (mRotation sample_rot002)) epsilon = true
      /\ IsUntransformed deg_to_rad sample_rot002 = false
      /\ operator_eq sample_rot002 STransformVecInfo_default = true).
Proof. repeat split. Qed.

(** Half a degree in radians, as the sample conversion computes it:
    about 0.0087. *)
Example AI_TT_ROTATION_EPSILON_sample :
  AI_TT_ROTATION_EPSILON deg_to_rad = S754_finite false 9370165 (-30)
  /\ F32.ltb (AI_TT_ROTATION_EPSILON deg_to_rad) epsilon = true.
Proof. split; reflexivity. Qed.

(* ================================================================== *)
(** ** The matrix composition [GetMatrix] *)

Section MatrixBuilder.

Variable cosf sinf : float -> float.

Lemma neb_one_scaling (t : STransformVecInfo) :
  mScaling t <> mkVector2D F32.one F32.one ->
  F32.neb F32.one (x (mScaling t)) || F32.neb F32.one (y (mScaling t)) = true.
Proof.
  intros H. unfold F32.neb.
  fold (F32.eqb F32.one (x (mScaling t))).
  fold (F32.eqb F32.one (y (mScaling t))).
  destruct (F32.eqb F32.one (x (mScaling t))) eqn:Hx; [ | reflexivity].
  destruct (F32.eqb F32.one (y (mScaling t))) eqn:Hy; [ | reflexivity].
  exfalso. apply H. apply vector_eq.
  split; apply F32Facts.eqb_one_iff; assumption.
Qed.

Lemma to_bool_not_zero (v : float) : ~ is_zero v -> F32.to_bool v = true.
Proof.
  intros H. destruct (F32.to_bool v) eqn:E; [reflexivity | ].
  exfalso. apply H. apply F32Facts.to_bool_false_iff. exact E.
Qed.

Lemma to_bool_translation (t : STransformVecInfo) :
  ~ (is_zero (x (mTranslation t)) /\ is_zero (y (mTranslation t))) ->
  F32.to_bool (x (mTranslation t)) || F32.to_bool (y (mTranslation t)) = true.
Proof.
  intros H.
  destruct (F32.to_bool (x (mTranslation t))) eqn:Hx; [reflexivity | ].
  destruct (F32.to_bool (y (mTranslation t))) eqn:Hy; [reflexivity | ].
  exfalso. apply H.
  split; apply F32Facts.to_bool_false_iff; assumption.
Qed.

(** C5: when the scale differs from (1,1), the rotation does not
    compare equal to zero and the translation differs from (0,0),
    [GetMatrix] leaves in [mOut] the product (S * R) * T of the pure
    scale matrix, the rotation matrix with the cosine on the
    diagonal, minus sine above it and plus sine below it, and the
    translation matrix with the translation in the third column:
    scale, then rotation, then translation, each multiplied in on
    the right. *)
Theorem GetMatrix_scale_rotate_translate
        (t : STransformVecInfo) (mOut : aiMatrix3x3) :
  mScaling t <> mkVector2D F32.one F32.one ->
  ~ is_zero (mRotation t) ->
  ~ (is_zero (x (mTranslation t)) /\ is_zero (y (mTranslation t))) ->
  GetMatrix cosf sinf t mOut =
    operator_mul_assign
      (operator_mul_assign (scale_matrix t) (rotation_matrix cosf sinf t))
      (translation_matrix t).
Proof.
  intros Hs Hr Ht. unfold GetMatrix.
  rewrite (neb_one_scaling _ Hs), (to_bool_not_zero _ Hr), (to_bool_translation _ Ht).
  reflexivity.
Qed.

(** C6: with scale (1,1), rotation 0 and translation (0,0),
    [GetMatrix] leaves the identity matrix in [mOut]. *)
Theorem GetMatrix_default
        (t : STransformVecInfo) (mOut : aiMatrix3x3) :
  mScaling t = mkVector2D F32.one F32.one ->
  mRotation t = F32.zero ->
  mTranslation t = mkVector2D F32.zero F32.zero ->
  GetMatrix cosf sinf t mOut =
    mkMatrix3x3 F32.one F32.zero F32.zero
                F32.zero F32.one F32.zero
                F32.zero F32.zero F32.one.
Proof.
  intros Hs Hr Ht. unfold GetMatrix. rewrite Hs, Hr, Ht. reflexivity.
Qed.

(** C9: two descriptors with equal [mScaling], [mRotation] and
    [mTranslation] make [GetMatrix] write the same matrix, whatever
    their other fields and whatever [mOut] held before. *)
Theorem GetMatrix_transform_only
        (t u : STransformVecInfo) (mOut mOut' : aiMatrix3x3) :
  mScaling t = mScaling u ->
  mRotation t = mRotation u ->
  mTranslation t = mTranslation u ->
  GetMatrix cosf sinf t mOut = GetMatrix cosf sinf u mOut'.
Proof.
  intros Hs Hr Ht. unfold GetMatrix. rewrite Hs, Hr, Ht. reflexivity.
Qed.

End MatrixBuilder.

Lemma GetMatrix_scale_rotate_translate_witness :
  GetMatrix cos_poly sin_poly sample_full aiMatrix3x3_default =
    operator_mul_assign
      (operator_mul_assign (scale_matrix sample_full)
                           (rotation_matrix cos_poly sin_poly sample_full))
      (translation_matrix sample_full).
Proof.
  apply (GetMatrix_scale_rotate_translate cos_poly sin_poly sample_full).
  - discriminate.
  - intros [s H]; discriminate H.
  - intros [[s H] _]; discriminate H.
Defined.

Lemma GetMatrix_default_witness :
  GetMatrix cos_poly sin_poly sample_channel1 (scale_matrix sample_full) =
    mkMatrix3x3 F32.one F32.zero F32.zero
                F32.zero F32.one F32.zero
                F32.zero F32.zero F32.one.
Proof.
  apply (GetMatrix_default cos_poly sin_poly sample_channel1); reflexivity.
Defined.

Lemma GetMatrix_transform_only_witness :
  GetMatrix cos_poly sin_poly sample_full aiMatrix3x3_default =
  GetMatrix cos_poly sin_poly sample_full_other (scale_matrix sample_full).
Proof.
  apply (GetMatrix_transform_only cos_poly sin_poly
           sample_full sample_full_other); reflexivity.
Defined.

(** The order of the factors matters: on the sample transform the
    product taken in the reverse order is another matrix. *)
Example GetMatrix_order_matters :
  GetMatrix cos_poly sin_poly sample_full aiMatrix3x3_default <>
    operator_mul_assign
      (operator_mul_assign (translation_matrix sample_full)
                           (rotation_matrix cos_poly sin_poly sample_full))
      (scale_matrix sample_full).
Proof. vm_compute. discriminate. Qed.

(* ================================================================== *)
(** ** The merger and the allocator *)

Lemma IsUntransformed_base (AI_DEG_TO_RAD : float -> float)
      (t u : STransformVecInfo) :
  base t = base u ->
  IsUntransformed AI_DEG_TO_RAD t = IsUntransformed AI_DEG_TO_RAD u.
Proof.
  intros H. unfold IsUntransformed, mScaling, mTranslation, mRotation.
  rewrite H. reflexivity.
Qed.

Lemma GetMatrix_base (cosf sinf : float -> float)
      (t u : STransformVecInfo) (mOut mOut' : aiMatrix3x3) :
  base t = base u ->
  GetMatrix cosf sinf t mOut = GetMatrix cosf sinf u mOut'.
Proof.
  intros H. unfold GetMatrix, mScaling, mTranslation, mRotation.
  rewrite H. reflexivity.
Qed.

Lemma merge_descriptor_Forall (P : STransformVecInfo -> Prop)
      (info : STransformVecInfo) (clusters : list STransformVecInfo) :
  (forall r l, P r -> P (with_updateList l r)) ->
  P info -> Forall P clusters -> Forall P (merge_descriptor info clusters).
Proof.
  intros HP Hinfo. induction 1 as [ | rep rest Hrep Hrest IH]; simpl.
  - repeat constructor; assumption.
  - destruct (same_cluster rep info); constructor; auto.
Qed.

(** The merger keeps every shortcut, each of them once. *)
Lemma merge_descriptor_shortcuts (info : STransformVecInfo)
      (clusters : list STransformVecInfo) :
  concat (map updateList (merge_descriptor info clusters))
  ≡ₚ concat (map updateList clusters) ++ updateList info.
Proof.
  induction clusters as [ | rep rest IH]; simpl.
  - rewrite app_nil_r. reflexivity.
  - destruct (same_cluster rep info); simpl.
    + rewrite <- !app_assoc. apply Permutation_app_head, Permutation_app_comm.
    + rewrite IH, app_assoc. reflexivity.
Qed.

Lemma merger_shortcuts (descriptors clusters : list STransformVecInfo) :
  concat (map updateList
            (foldl (fun cs info => merge_descriptor info cs) clusters descriptors))
  ≡ₚ concat (map updateList clusters) ++ concat (map updateList descriptors).
Proof.
  revert clusters. induction descriptors as [ | info rest IH]; intros clusters; simpl.
  - rewrite app_nil_r. reflexivity.
  - rewrite IH, merge_descriptor_shortcuts, app_assoc. reflexivity.
Qed.

(** The merger makes at most one cluster per descriptor. *)
Lemma merge_descriptor_length (info : STransformVecInfo)
      (clusters : list STransformVecInfo) :
  (length (merge_descriptor info clusters) <= S (length clusters))%nat.
Proof.
  induction clusters as [ | rep rest IH]; simpl; [lia | ].
  destruct (same_cluster rep info); simpl; lia.
Qed.

Lemma merger_length (descriptors clusters : list STransformVecInfo) :
  (length (foldl (fun cs info => merge_descriptor info cs) clusters descriptors)
   <= length clusters + length descriptors)%nat.
Proof.
  revert clusters. induction descriptors as [ | info rest IH];
    intros clusters; simpl; [lia | ].
  pose proof (IH (merge_descriptor info clusters)).
  pose proof (merge_descriptor_length info clusters). lia.
Qed.

Lemma same_cluster_with_uvIndex (v w : uint) (rep info : STransformVecInfo) :
  same_cluster (with_uvIndex v rep) (with_uvIndex w info)
  = (v =? w) && operator_eq rep info.
Proof.
  reflexivity.
Qed.

Section MergerFacts.

Variable AI_DEG_TO_RAD : float -> float.

Local Abbreviation destination_of := (destination_of AI_DEG_TO_RAD).
Local Abbreviation counter_after := (counter_after AI_DEG_TO_RAD).
Local Abbreviation redirect := (redirect AI_DEG_TO_RAD).
Local Abbreviation joined_channel := (joined_channel AI_DEG_TO_RAD).
Local Abbreviation channel_writes := (channel_writes AI_DEG_TO_RAD).
Local Abbreviation redirect_descriptors := (redirect_descriptors AI_DEG_TO_RAD).

Lemma counter_after_le (counter : uint) (rep : STransformVecInfo) :
  counter <= counter_after counter rep.
Proof. unfold counter_after. destruct (IsUntransformed _ _); lia. Qed.

Lemma destination_of_with_updateList (counter : uint)
      (rep : STransformVecInfo) (l : list TTUpdateInfo) :
  destination_of counter (with_updateList l rep) = destination_of counter rep.
Proof.
  unfold destination_of.
  rewrite (IsUntransformed_base _ (with_updateList l rep) rep eq_refl).
  reflexivity.
Qed.

Lemma counter_after_with_updateList (counter : uint)
      (rep : STransformVecInfo) (l : list TTUpdateInfo) :
  counter_after counter (with_updateList l rep) = counter_after counter rep.
Proof.
  unfold counter_after.
  rewrite (IsUntransformed_base _ (with_updateList l rep) rep eq_refl).
  reflexivity.
Qed.

(** A destination is the source channel of the descriptor or a value
    that the counter takes from now on. *)
Lemma joined_channel_range (clusters : list STransformVecInfo)
      (counter : uint) (info : STransformVecInfo) :
  joined_channel counter clusters info = uvIndex info
  \/ counter <= joined_channel counter clusters info.
Proof.
  revert counter. induction clusters as [ | rep rest IH]; intros counter; simpl.
  - unfold destination_of. destruct (IsUntransformed _ _); [left | right]; lia.
  - destruct (same_cluster rep info) eqn:Hsame.
    + unfold same_cluster in Hsame. apply andb_prop in Hsame as [Hu _].
      apply Z.eqb_eq in Hu.
      unfold destination_of. destruct (IsUntransformed _ _); [left | right]; lia.
    + pose proof (counter_after_le counter rep) as Hle.
      destruct (IH (counter_after counter rep)) as [H | H];
        [left; exact H | right; lia].
Qed.

(** One step of the merger on the redirected scene: the redirected
    descriptor joins the redirected cluster of its cluster. *)
Lemma merge_descriptor_redirect (seed : uint) (info : STransformVecInfo)
      (clusters : list STransformVecInfo) (counter : uint) :
  seed <= counter ->
  uvIndex info < seed ->
  Forall (fun r => uvIndex r < seed) clusters ->
  merge_descriptor (with_uvIndex (joined_channel counter clusters info) info)
                   (redirect counter clusters)
  = redirect counter (merge_descriptor info clusters).
Proof.
  intros Hseed Hinfo. revert counter Hseed.
  induction clusters as [ | rep rest IH]; intros counter Hseed Hc; simpl.
  - reflexivity.
  - inversion Hc as [ | ? ? Hrep Hrest]; subst.
    destruct (same_cluster rep info) eqn:Hsame; simpl.
    + rewrite same_cluster_with_uvIndex, Z.eqb_refl.
      unfold same_cluster in Hsame. apply andb_prop in Hsame as [_ ->].
      rewrite destination_of_with_updateList, counter_after_with_updateList.
      reflexivity.
    + assert (same_cluster (with_uvIndex (destination_of counter rep) rep)
                (with_uvIndex
                   (joined_channel (counter_after counter rep) rest info) info)
              = false) as ->.
      { rewrite same_cluster_with_uvIndex. unfold same_cluster in Hsame.
        destruct (operator_eq rep info); [ | apply andb_false_r].
        rewrite andb_true_r in *. apply Z.eqb_neq in Hsame. apply Z.eqb_neq.
        pose proof (joined_channel_range rest (counter_after counter rep) info)
          as Hn.
        revert Hn. unfold destination_of, counter_after.
        destruct (IsUntransformed _ rep); lia. }
      f_equal. apply IH; [ | exact Hrest].
      pose proof (counter_after_le counter rep). lia.
Qed.

(** The whole merger on the redirected descriptors. *)
Lemma merger_redirect (seed : uint)
      (descriptors clusters : list STransformVecInfo) :
  Forall (fun r => uvIndex r < seed) clusters ->
  Forall (fun r => uvIndex r < seed) descriptors ->
  foldl (fun cs info => merge_descriptor info cs)
        (redirect seed clusters)
        (redirect_descriptors seed clusters descriptors)
  = redirect seed (foldl (fun cs info => merge_descriptor info cs)
                         clusters descriptors).
Proof.
  intros Hc Hd. revert clusters Hc.
  induction Hd as [ | info rest Hinfo Hrest IH]; intros clusters Hc; simpl.
  - reflexivity.
  - rewrite (merge_descriptor_redirect seed) by (assumption || lia).
    apply IH. apply merge_descriptor_Forall; auto.
Qed.

(** The writes of a redirected cluster list are the writes of the
    list. *)
Lemma channel_writes_redirect (clusters : list STransformVecInfo)
      (counter : uint) :
  channel_writes counter (redirect counter clusters)
  = channel_writes counter clusters.
Proof.
  revert counter. induction clusters as [ | rep rest IH]; intros counter; simpl.
  - reflexivity.
  - assert (destination_of counter
              (with_uvIndex (destination_of counter rep) rep)
            = destination_of counter rep) as ->.
    { unfold destination_of.
      rewrite (IsUntransformed_base _ (with_uvIndex _ rep) rep eq_refl).
      destruct (IsUntransformed _ rep); reflexivity. }
    assert (counter_after counter
              (with_uvIndex (destination_of counter rep) rep)
            = counter_after counter rep) as ->.
    { unfold counter_after.
      rewrite (IsUntransformed_base _ (with_uvIndex _ rep) rep eq_refl).
      reflexivity. }
    rewrite IH. reflexivity.
Qed.

Lemma channel_writes_shortcuts (clusters : list STransformVecInfo)
      (counter : uint) :
  (channel_writes counter clusters).*1 = concat (map updateList clusters).
Proof.
  revert counter. induction clusters as [ | rep rest IH]; intros counter; simpl.
  - reflexivity.
  - rewrite fmap_app, IH. f_equal.
    rewrite <- list_fmap_compose. apply list_fmap_id.
Qed.

(** Merging one more descriptor keeps the writes planned so far. *)
Lemma channel_writes_merge_mono (info : STransformVecInfo)
      (clusters : list STransformVecInfo) (counter : uint)
      (w : TTUpdateInfo * uint) :
  w ∈ channel_writes counter clusters ->
  w ∈ channel_writes counter (merge_descriptor info clusters).
Proof.
  revert counter. induction clusters as [ | rep rest IH]; intros counter; simpl.
  - intros H. inversion H.
  - destruct (same_cluster rep info); simpl.
    + rewrite destination_of_with_updateList, counter_after_with_updateList.
      rewrite !elem_of_app, !list_elem_of_fmap.
      intros [(u & -> & Hu) | H]; [left | right; exact H].
      exists u. split; [reflexivity | ]. apply elem_of_app. left; exact Hu.
    + rewrite !elem_of_app. intros [H | H]; [left; exact H | right; auto].
Qed.

Lemma channel_writes_merger_mono (descriptors clusters : list STransformVecInfo)
      (counter : uint) (w : TTUpdateInfo * uint) :
  w ∈ channel_writes counter clusters ->
  w ∈ channel_writes counter
        (foldl (fun cs info => merge_descriptor info cs) clusters descriptors).
Proof.
  revert clusters. induction descriptors as [ | info rest IH];
    intros clusters H; simpl; [exact H | ].
  apply IH, channel_writes_merge_mono, H.
Qed.

(** The shortcuts of a merged descriptor are written with the
    destination of its cluster. *)
Lemma channel_writes_joined (info : STransformVecInfo)
      (clusters : list STransformVecInfo) (counter : uint) (u : TTUpdateInfo) :
  u ∈ updateList info ->
  (u, joined_channel counter clusters info)
    ∈ channel_writes counter (merge_descriptor info clusters).
Proof.
  intros Hu. revert counter.
  induction clusters as [ | rep rest IH]; intros counter; simpl.
  - rewrite app_nil_r. apply list_elem_of_fmap. exists u. auto.
  - destruct (same_cluster rep info); simpl.
    + rewrite destination_of_with_updateList.
      apply elem_of_app. left. apply list_elem_of_fmap. exists u.
      split; [reflexivity | ]. apply elem_of_app. right; exact Hu.
    + apply elem_of_app. right. apply IH.
Qed.

End MergerFacts.

(* ================================================================== *)
(** ** Writes through shortcuts *)

(** A fold in which every element either overwrites the accumulator or
    leaves it alone reaches a fixed point after one pass. *)
Lemma foldl_overwrite_idem {A W : Type} (P : W -> Prop)
      `{forall w, Decision (P w)} (val : W -> A) (ws : list W) (a : A) :
  foldl (fun a w => if decide (P w) then val w else a)
        (foldl (fun a w => if decide (P w) then val w else a) a ws) ws
  = foldl (fun a w => if decide (P w) then val w else a) a ws.
Proof.
  induction ws as [ | w ws IH] using rev_ind; [reflexivity | ].
  rewrite !foldl_app. simpl. destruct (decide (P w)); [reflexivity | ].
  exact IH.
Qed.

Lemma channel_after_idem (ws : list (TTUpdateInfo * uint)) (i j : nat) (c : uint) :
  channel_after ws i j (channel_after ws i j c) = channel_after ws i j c.
Proof.
  unfold channel_after.
  apply (foldl_overwrite_idem
           (fun w : TTUpdateInfo * uint =>
              shortcut_place w.1 = (Some i, Some j)) snd).
Qed.

Lemma channel_after_miss (ws : list (TTUpdateInfo * uint)) (i j : nat) (c : uint) :
  (Some i, Some j) ∉ (shortcut_place ∘ fst) <$> ws ->
  channel_after ws i j c = c.
Proof.
  unfold channel_after. revert c. induction ws as [ | w ws IH]; intros c Hn; simpl.
  - reflexivity.
  - rewrite fmap_cons, not_elem_of_cons in Hn. destruct Hn as [Hw Hws].
    destruct (decide _) as [E | _]; [ | apply IH, Hws].
    exfalso. apply Hw. symmetry. exact E.
Qed.

(** When no two writes go to the same place, a slot ends with the
    value written to it. *)
Lemma channel_after_hit (ws : list (TTUpdateInfo * uint)) (u : TTUpdateInfo)
      (v : uint) (i j : nat) (c : uint) :
  NoDup ((shortcut_place ∘ fst) <$> ws) ->
  (u, v) ∈ ws ->
  shortcut_place u = (Some i, Some j) ->
  channel_after ws i j c = v.
Proof.
  intros Hnd Hin Hu. revert c.
  induction ws as [ | w ws IH]; intros c; [inversion Hin | ].
  rewrite fmap_cons in Hnd. apply NoDup_cons in Hnd as [Hw Hws].
  apply elem_of_cons in Hin as [<- | Hin].
  - unfold channel_after. simpl. rewrite decide_True by exact Hu.
    apply channel_after_miss. simpl in Hw. rewrite Hu in Hw. exact Hw.
  - unfold channel_after. simpl. apply IH; assumption.
Qed.

Lemma retarget_ext (g h : nat -> nat -> uint -> uint)
      (materials : list (list TextureSlot)) :
  (forall i j c, g i j c = h i j c) ->
  retarget g materials = retarget h materials.
Proof.
  intros E. unfold retarget. apply imap_ext. intros i m _. simpl.
  apply imap_ext. intros j sl _. simpl. rewrite E. reflexivity.
Qed.

Lemma retarget_id (materials : list (list TextureSlot)) :
  retarget (fun _ _ c => c) materials = materials.
Proof.
  unfold retarget. apply list_eq. intros i. rewrite list_lookup_imap.
  destruct (materials !! i) as [m | ]; simpl; [ | reflexivity]. f_equal.
  apply list_eq. intros j. rewrite list_lookup_imap.
  destruct (m !! j) as [[]| ]; reflexivity.
Qed.

(** One write through a direct shortcut, on retargeted materials. *)
Lemma patch_write_retarget (g : nat -> nat -> uint -> uint)
      (materials : list (list TextureSlot)) (w : TTUpdateInfo * uint) :
  direct w.1 ->
  patch_write (retarget g materials) w
  = retarget (fun i j c => channel_after [w] i j (g i j c)) materials.
Proof.
  intros (i & j & Hw). destruct w as [u v]. simpl in Hw.
  unfold shortcut_place in Hw. injection Hw as Hi Hj.
  unfold patch_write, patch_shortcut. simpl. rewrite Hi, Hj.
  unfold retarget. apply list_eq. intros i'.
  rewrite list_lookup_alter, !list_lookup_imap.
  destruct (decide (i = i')) as [<- | Hne];
    destruct (materials !! _) as [m | ]; simpl; try reflexivity; f_equal.
  - apply list_eq. intros j'.
    rewrite list_lookup_alter, !list_lookup_imap.
    unfold channel_after, shortcut_place. simpl. rewrite Hi, Hj.
    destruct (decide (j = j')) as [<- | Hne];
      destruct (m !! _) as [sl | ]; simpl; try reflexivity.
    + rewrite decide_True by reflexivity. reflexivity.
    + rewrite decide_False by congruence. reflexivity.
  - apply imap_ext. intros j' sl _. simpl.
    unfold channel_after, shortcut_place. simpl. rewrite Hi, Hj.
    rewrite decide_False by congruence. reflexivity.
Qed.

(** A list of writes through direct shortcuts. *)
Lemma patch_writes_retarget (ws : list (TTUpdateInfo * uint))
      (g : nat -> nat -> uint -> uint) (materials : list (list TextureSlot)) :
  Forall direct ws.*1 ->
  foldl patch_write (retarget g materials) ws
  = retarget (fun i j c => channel_after ws i j (g i j c)) materials.
Proof.
  revert g. induction ws as [ | w ws IH]; intros g Hd; simpl.
  - reflexivity.
  - rewrite fmap_cons in Hd. inversion Hd as [ | ? ? Hw Hws]; subst.
    rewrite patch_write_retarget by exact Hw.
    rewrite IH by exact Hws. reflexivity.
Qed.

Lemma foldl_patch_shortcut (v : uint) (l : list TTUpdateInfo)
      (materials : list (list TextureSlot)) :
  foldl (patch_shortcut v) materials l
  = foldl patch_write materials ((fun u => (u, v)) <$> l).
Proof.
  revert materials. induction l as [ | u l IH]; intros materials; simpl;
    [reflexivity | apply IH].
Qed.

(** Storing the same matrices a second time changes nothing. *)
Lemma store_matrix_lookup (ws : list (uint * aiMatrix3x3))
      (tr : gmap Z aiMatrix3x3) (k : Z) :
  foldl store_matrix tr ws !! k
  = foldl (fun o w => if decide (w.1 = k) then Some w.2 else o) (tr !! k) ws.
Proof.
  revert tr. induction ws as [ | w ws IH]; intros tr; simpl; [reflexivity | ].
  rewrite IH. unfold store_matrix at 1. rewrite lookup_insert.
  reflexivity.
Qed.

Lemma store_matrix_idem (ws : list (uint * aiMatrix3x3))
      (tr : gmap Z aiMatrix3x3) :
  foldl store_matrix (foldl store_matrix tr ws) ws = foldl store_matrix tr ws.
Proof.
  apply map_eq. intros k. rewrite !store_matrix_lookup.
  apply (foldl_overwrite_idem (fun w : uint * aiMatrix3x3 => w.1 = k)
                              (fun w => Some w.2)).
Qed.

(* ================================================================== *)
(** ** The collector *)

Section Imap2.

Context {A B : Type}.

Lemma imap2_cons (f : nat -> nat -> A -> B) (l : list A) (ls : list (list A)) :
  imap2 f (l :: ls) = imap (f 0%nat) l ++ imap2 (fun i => f (S i)) ls.
Proof. reflexivity. Qed.

Lemma imap2_Forall (P : B -> Prop) (f : nat -> nat -> A -> B)
      (ls : list (list A)) :
  (forall i j a, P (f i j a)) -> Forall P (imap2 f ls).
Proof.
  revert f. induction ls as [ | l ls IH]; intros f Hf.
  - constructor.
  - rewrite imap2_cons. apply Forall_app. split; [ | apply IH; auto].
    apply Forall_forall. intros b Hb.
    apply elem_of_lookup_imap in Hb as (j & a & -> & _). apply Hf.
Qed.

Lemma imap2_Forall_in (P : B -> Prop) (Q : A -> Prop)
      (f : nat -> nat -> A -> B) (ls : list (list A)) :
  (forall i j a, Q a -> P (f i j a)) ->
  Forall (Forall Q) ls -> Forall P (imap2 f ls).
Proof.
  intros Hf Hls. revert f Hf.
  induction Hls as [ | l ls Hl Hls IH]; intros f Hf.
  - constructor.
  - rewrite imap2_cons. apply Forall_app. split; [ | apply IH; auto].
    apply Forall_forall. intros b Hb.
    apply elem_of_lookup_imap in Hb as (j & a & -> & Ha).
    apply Hf. eapply Forall_forall; [exact Hl | ].
    eapply list_elem_of_lookup_2, Ha.
Qed.

Lemma imap2_elem_of (f : nat -> nat -> A -> B) (ls : list (list A)) (b : B) :
  b ∈ imap2 f ls -> exists i j a, b = f i j a.
Proof.
  intros Hb.
  assert (Forall (fun b => exists i j a, b = f i j a) (imap2 f ls)) as H
      by (apply imap2_Forall; eauto).
  eapply Forall_forall in H; eauto.
Qed.

Lemma imap2_ext (f g : nat -> nat -> A -> B) (ls : list (list A)) :
  (forall i j a, f i j a = g i j a) -> imap2 f ls = imap2 g ls.
Proof.
  intros E. unfold imap2. f_equal. apply imap_ext. intros i l _. simpl.
  apply imap_ext. intros j a _. apply E.
Qed.

Lemma imap2_fmap {C : Type} (h : B -> C) (f : nat -> nat -> A -> B)
      (ls : list (list A)) :
  h <$> imap2 f ls = imap2 (fun i j a => h (f i j a)) ls.
Proof.
  revert f. induction ls as [ | l ls IH]; intros f; [reflexivity | ].
  rewrite !imap2_cons, fmap_app, IH, fmap_imap. reflexivity.
Qed.

End Imap2.

(** Places are visited once. *)
Lemma imap2_places_NoDup {A P : Type} (f : nat -> nat -> P) (ls : list (list A)) :
  (forall i j i' j', f i j = f i' j' -> i = i' /\ j = j') ->
  NoDup (imap2 (fun i j _ => f i j) ls).
Proof.
  revert f. induction ls as [ | l ls IH]; intros f Hf.
  - constructor.
  - rewrite imap2_cons. apply NoDup_app. split; [ | split].
    + rewrite imap_seq_0. apply NoDup_fmap_2_strong; [ | apply NoDup_seq].
      intros j j' _ _ E. apply Hf in E. tauto.
    + intros p Hp Hq.
      apply elem_of_lookup_imap in Hp as (j & a & -> & _).
      apply imap2_elem_of in Hq as (i' & j' & _ & E).
      apply Hf in E. destruct E; discriminate.
    + apply (IH (fun i => f (S i))). intros i j i' j' E.
      apply Hf in E. destruct E; split; congruence.
Qed.

Lemma concat_singletons {A B : Type} (h : A -> B) (l : list A) :
  concat ((fun a => [h a]) <$> l) = h <$> l.
Proof.
  induction l as [ | a l IH]; [reflexivity | ].
  simpl. f_equal. exact IH.
Qed.

Lemma retarget_cons (g : nat -> nat -> uint -> uint)
      (m : list TextureSlot) (materials : list (list TextureSlot)) :
  retarget g (m :: materials)
  = imap (fun j sl => set_slotChannel (g 0%nat j (slotChannel sl)) sl) m
      :: retarget (fun i => g (S i)) materials.
Proof. reflexivity. Qed.

Lemma imap_imap {A B C : Type} (f : nat -> B -> C) (g : nat -> A -> B)
      (l : list A) :
  imap f (imap g l) = imap (fun i a => f i (g i a)) l.
Proof.
  apply list_eq. intros i. rewrite !list_lookup_imap.
  destruct (l !! i); reflexivity.
Qed.

Lemma imap2_retarget {B : Type} (f : nat -> nat -> TextureSlot -> B)
      (g : nat -> nat -> uint -> uint) (materials : list (list TextureSlot)) :
  imap2 f (retarget g materials)
  = imap2 (fun i j sl => f i j (set_slotChannel (g i j (slotChannel sl)) sl))
          materials.
Proof.
  revert f g. induction materials as [ | m materials IH]; intros f g.
  - reflexivity.
  - rewrite retarget_cons, !imap2_cons, IH, imap_imap. reflexivity.
Qed.

Lemma TransformCollector_imap2 (materials : list (list TextureSlot)) :
  TransformCollector materials = imap2 describe materials.
Proof. reflexivity. Qed.

(** Collecting on retargeted materials gives the redirected
    descriptors. *)
Lemma TransformCollector_retarget (g : nat -> nat -> uint -> uint)
      (materials : list (list TextureSlot)) :
  TransformCollector (retarget g materials)
  = redirect_by g <$> TransformCollector materials.
Proof.
  rewrite (TransformCollector_imap2 materials).
  rewrite (TransformCollector_imap2 (retarget g materials)).
  rewrite imap2_retarget, imap2_fmap.
  apply imap2_ext. intros i j sl. reflexivity.
Qed.

Lemma TransformCollector_collected (materials : list (list TextureSlot)) :
  Forall collected (TransformCollector materials).
Proof.
  rewrite TransformCollector_imap2. apply imap2_Forall. intros i j sl.
  unfold collected. simpl. eauto.
Qed.

Lemma TransformCollector_shortcuts (materials : list (list TextureSlot)) :
  concat (updateList <$> TransformCollector materials)
  = imap2 (fun i j sl =>
             mkTTUpdateInfo (Some j) (Some i) (slotSemantic sl) (slotIndex sl))
          materials.
Proof.
  rewrite TransformCollector_imap2, imap2_fmap. simpl.
  rewrite <- (imap2_fmap (fun u => [u])), concat_singletons.
  apply list_fmap_id.
Qed.

Lemma TransformCollector_places (materials : list (list TextureSlot)) :
  NoDup (shortcut_place <$> concat (updateList <$> TransformCollector materials)).
Proof.
  rewrite TransformCollector_shortcuts, imap2_fmap. simpl.
  apply (imap2_places_NoDup (fun i j => (Some i, Some j))).
  intros i j i' j' E. split; congruence.
Qed.

Lemma imap2_length {A B : Type} (f : nat -> nat -> A -> B) (ls : list (list A)) :
  length (imap2 f ls) = length (concat ls).
Proof.
  revert f. induction ls as [ | l ls IH]; intros f; [reflexivity | ].
  rewrite imap2_cons. simpl. rewrite !length_app, length_imap, IH.
  reflexivity.
Qed.

(** One descriptor per slot. *)
Lemma TransformCollector_length (materials : list (list TextureSlot)) :
  length (TransformCollector materials) = length (concat materials).
Proof. rewrite TransformCollector_imap2. apply imap2_length. Qed.

Lemma TransformCollector_populated (s : aiScene) :
  channels_populated s ->
  Forall (fun t => uvIndex t < mNumUVChannels s)
         (TransformCollector (mMaterials s)).
Proof.
  intros H. rewrite TransformCollector_imap2.
  eapply imap2_Forall_in; [ | exact H]. intros i j sl Hsl. exact Hsl.
Qed.

(* ================================================================== *)
(** ** The pass *)

Section PassFacts.

Variable AI_DEG_TO_RAD : float -> float.
Variable cosf sinf : float -> float.
Variable maxChannels : uint.

Local Abbreviation destination_of := (destination_of AI_DEG_TO_RAD).
Local Abbreviation counter_after := (counter_after AI_DEG_TO_RAD).
Local Abbreviation redirect := (redirect AI_DEG_TO_RAD).
Local Abbreviation joined_channel := (joined_channel AI_DEG_TO_RAD).
Local Abbreviation channel_writes := (channel_writes AI_DEG_TO_RAD).
Local Abbreviation matrix_writes := (matrix_writes AI_DEG_TO_RAD cosf sinf).
Local Abbreviation redirect_descriptors := (redirect_descriptors AI_DEG_TO_RAD).
Local Abbreviation allocate := (allocate AI_DEG_TO_RAD maxChannels).
Local Abbreviation MatrixBuilder := (MatrixBuilder cosf sinf).
Local Abbreviation Execute := (Execute AI_DEG_TO_RAD cosf sinf maxChannels).

Lemma matrix_writes_redirect (clusters : list STransformVecInfo)
      (counter : uint) :
  matrix_writes counter (redirect counter clusters)
  = matrix_writes counter clusters.
Proof.
  revert counter. induction clusters as [ | rep rest IH]; intros counter; simpl.
  - reflexivity.
  - rewrite (IsUntransformed_base _ (with_uvIndex _ rep) rep eq_refl).
    unfold counter_after.
    destruct (IsUntransformed _ rep); rewrite IH; reflexivity.
Qed.

(** The allocator does not read source channels: it succeeds on the
    redirected clusters when it succeeds on the clusters. *)
Lemma allocate_redirect (clusters : list STransformVecInfo)
      (counter : uint) (allocated : list Cluster) :
  allocate counter clusters = Done allocated ->
  exists allocated',
    allocate counter (redirect counter clusters) = Done allocated'.
Proof.
  revert counter allocated.
  induction clusters as [ | rep rest IH]; intros counter allocated; simpl.
  - eauto.
  - rewrite (IsUntransformed_base _ (with_uvIndex _ rep) rep eq_refl).
    unfold counter_after.
    destruct (IsUntransformed _ rep).
    + destruct (allocate counter rest) as [a | e] eqn:Ha; [ | discriminate].
      intros _. destruct (IH _ _ Ha) as [a' ->]. simpl. eauto.
    + destruct (counter <? maxChannels); [ | discriminate].
      destruct (allocate (counter + 1) rest) as [a | e] eqn:Ha; [ | discriminate].
      intros _. destruct (IH _ _ Ha) as [a' ->]. simpl. eauto.
Qed.

(** The allocator fails on exhaustion only, and leaves no cluster
    unresolved. *)
Lemma allocate_failure (clusters : list STransformVecInfo)
      (counter : uint) (e : StepFailure) :
  allocate counter clusters = Failed e -> e = ChannelIndexExhausted.
Proof.
  revert counter. induction clusters as [ | rep rest IH]; intros counter; simpl.
  - discriminate.
  - destruct (IsUntransformed _ rep).
    + destruct (allocate counter rest) eqn:Ha; [discriminate | ].
      intros [= <-]. eapply IH, Ha.
    + destruct (counter <? maxChannels); [ | congruence].
      destruct (allocate (counter + 1) rest) eqn:Ha; [discriminate | ].
      intros [= <-]. eapply IH, Ha.
Qed.

(** The allocator succeeds when the index space holds one more
    channel for every cluster. *)
Lemma allocate_succeeds (clusters : list STransformVecInfo) (counter : uint) :
  counter + Z.of_nat (length clusters) <= maxChannels ->
  exists allocated, allocate counter clusters = Done allocated.
Proof.
  revert counter. induction clusters as [ | rep rest IH]; intros counter Hc.
  - simpl. eauto.
  - cbn [length] in Hc. simpl.
    destruct (IsUntransformed _ rep).
    + destruct (IH counter) as [a ->]; [lia | ]. simpl. eauto.
    + destruct (Z.ltb_spec counter maxChannels); [ | lia].
      destruct (IH (counter + 1)) as [a ->]; [lia | ]. simpl. eauto.
Qed.

(** The patcher carries out the planned writes. *)
Lemma MaterialPatcher_plan (clusters : list STransformVecInfo)
      (counter : uint) (allocated : list Cluster) (s : aiScene) :
  allocate counter clusters = Done allocated ->
  MaterialPatcher s (map (fun c => (c, MatrixBuilder c)) allocated)
  = Done (mkScene
            (foldl patch_write (mMaterials s) (channel_writes counter clusters))
            (mNumUVChannels s)
            (foldl store_matrix (mUVTransforms s)
                   (matrix_writes counter clusters))).
Proof.
  revert counter allocated s.
  induction clusters as [ | rep rest IH]; intros counter allocated s; simpl.
  - intros [= <-]. destruct s; reflexivity.
  - unfold destination_of, counter_after.
    destruct (IsUntransformed _ rep).
    + destruct (allocate counter rest) as [a | e] eqn:Ha; [ | discriminate].
      intros [= <-]. simpl. rewrite (IH _ _ _ Ha). simpl.
      rewrite foldl_app, <- foldl_patch_shortcut. reflexivity.
    + destruct (counter <? maxChannels); [ | discriminate].
      destruct (allocate (counter + 1) rest) as [a | e] eqn:Ha; [ | discriminate].
      intros [= <-]. simpl. rewrite (IH _ _ _ Ha). simpl.
      rewrite foldl_app, <- foldl_patch_shortcut. reflexivity.
Qed.

Lemma redirect_by_collected (g : nat -> nat -> uint -> uint)
      (t : STransformVecInfo) (u : TTUpdateInfo) (i j : nat) :
  updateList t = [u] -> shortcut_place u = (Some i, Some j) ->
  redirect_by g t = with_uvIndex (g i j (uvIndex t)) t.
Proof.
  intros Hl Hu. unfold redirect_by, descriptor_place. rewrite Hl, Hu.
  reflexivity.
Qed.

(** The descriptors redirected along the merger are the descriptors
    with the channel that the planned writes leave in their slot. *)
Lemma redirect_descriptors_by (seed : uint)
      (descriptors clusters : list STransformVecInfo) :
  Forall collected descriptors ->
  NoDup (shortcut_place
           <$> (concat (updateList <$> clusters)
                ++ concat (updateList <$> descriptors))) ->
  redirect_descriptors seed clusters descriptors
  = redirect_by
      (channel_after
         (channel_writes seed
            (foldl (fun cs info => merge_descriptor info cs)
                   clusters descriptors)))
      <$> descriptors.
Proof.
  intros Hd. revert clusters.
  induction Hd as [ | info rest Hinfo Hrest IH]; intros clusters Hnd.
  - reflexivity.
  - simpl. f_equal.
    + destruct Hinfo as (u & i & j & Hl & Hu).
      rewrite (redirect_by_collected _ _ u i j Hl Hu). f_equal.
      symmetry. apply (channel_after_hit _ u); [ | | exact Hu].
      * rewrite list_fmap_compose, channel_writes_shortcuts.
        rewrite (merger_shortcuts rest), merge_descriptor_shortcuts.
        rewrite <- app_assoc. exact Hnd.
      * apply channel_writes_merger_mono, channel_writes_joined.
        rewrite Hl. apply list_elem_of_here.
    + apply IH. rewrite merge_descriptor_shortcuts, <- app_assoc. exact Hnd.
Qed.

Lemma channel_writes_direct (seed : uint) (materials : list (list TextureSlot)) :
  Forall direct
         (channel_writes seed
            (EquivalenceMerger (TransformCollector materials))).*1.
Proof.
  rewrite channel_writes_shortcuts. unfold EquivalenceMerger.
  rewrite merger_shortcuts. simpl.
  rewrite TransformCollector_shortcuts. apply imap2_Forall.
  intros i j sl. exists i, j. reflexivity.
Qed.

(** What a successful pass leaves: the materials retargeted by the
    planned writes, the matrices stored by the planned stores. *)
Lemma Execute_plan (s s' : aiScene) :
  Execute s = Done s' ->
  s' = mkScene
         (retarget
            (channel_after
               (channel_writes (mNumUVChannels s)
                  (EquivalenceMerger (TransformCollector (mMaterials s)))))
            (mMaterials s))
         (mNumUVChannels s)
         (foldl store_matrix (mUVTransforms s)
                (matrix_writes (mNumUVChannels s)
                   (EquivalenceMerger (TransformCollector (mMaterials s))))).
Proof.
  unfold Execute, ChannelAllocator. simpl.
  destruct (allocate _ _) as [a | e] eqn:Ha; [ | discriminate]. simpl.
  rewrite (MaterialPatcher_plan _ _ _ _ Ha). intros [= <-]. f_equal.
  rewrite <- (retarget_id (mMaterials s)) at 1.
  rewrite patch_writes_retarget by apply channel_writes_direct.
  reflexivity.
Qed.

(** The pass succeeds when the index space holds one more channel
    for every slot of the scene. *)
Lemma Execute_succeeds (s : aiScene) :
  mNumUVChannels s + Z.of_nat (length (concat (mMaterials s))) <= maxChannels ->
  exists s', Execute s = Done s'.
Proof.
  intros Hc. unfold Execute, ChannelAllocator. simpl.
  destruct (allocate_succeeds
              (EquivalenceMerger (TransformCollector (mMaterials s)))
              (mNumUVChannels s)) as [a Ha].
  - pose proof (merger_length (TransformCollector (mMaterials s)) []) as Hl.
    rewrite TransformCollector_length in Hl. simpl in Hl.
    unfold EquivalenceMerger. lia.
  - rewrite Ha. simpl. rewrite (MaterialPatcher_plan _ _ _ _ Ha). eauto.
Qed.

End PassFacts.

(* ================================================================== *)
(** ** Running the pass twice *)

Section Idempotence.

Variable AI_DEG_TO_RAD : float -> float.
Variable cosf sinf : float -> float.
Variable maxChannels : uint.

Local Abbreviation Execute := (Execute AI_DEG_TO_RAD cosf sinf maxChannels).

(** The pass fails on exhaustion of the channel indices only: the
    allocator leaves no cluster unresolved for the patcher. *)
Lemma Execute_failure (s : aiScene) (e : StepFailure) :
  Execute s = Failed e -> e = ChannelIndexExhausted.
Proof.
  unfold Execute, ChannelAllocator. simpl.
  destruct (allocate _ _ _ _) as [a | e'] eqn:Ha; simpl.
  - rewrite (MaterialPatcher_plan _ _ _ _ _ _ _ _ Ha). discriminate.
  - intros [= <-]. eapply allocate_failure, Ha.
Qed.


End Idempotence.


(** The invariant of the data model is needed.  In a scene that
    breaks it, with one populated channel and an untransformed slot
    that reads channel 1, the first run leaves that slot on channel 1,
    gives channel 1 to the slot shifted by (0.01, 0) and channel 2 to
    the scaled slot.  On the second run the shifted slot compares
    equal to the untransformed one and joins its cluster, so the
    scaled slot moves from channel 2 to channel 1 and its matrix
    replaces the one stored there. *)
Lemma Execute_twice_unpopulated :
  Execute deg_to_rad cos_poly sin_poly 8 scene_unpopulated
  = Done scene_unpopulated_once
  /\ Execute deg_to_rad cos_poly sin_poly 8 scene_unpopulated_once
     = Done scene_unpopulated_twice
  /\ slot_channels scene_unpopulated_once = [[1; 1; 2]]
  /\ slot_channels scene_unpopulated_twice = [[1; 1; 1]]
  /\ mUVTransforms scene_unpopulated_once !! 1
     <> mUVTransforms scene_unpopulated_twice !! 1
  /\ ~ channels_populated scene_unpopulated.
Proof.
  split; [vm_compute; reflexivity | ].
  split; [vm_compute; reflexivity | ].
  split; [reflexivity | ]. split; [reflexivity | ].
  split; [vm_compute; discriminate | ].
  intros H. inversion H as [ | ? ? Hm _]; subst.
  inversion Hm as [ | ? ? Hsl _]; subst. simpl in Hsl. lia.
Qed.

(** The two runs do not depend on the external functions: no slot is
    rotated, so the cosine and the sine are not called, and any
    positive rotation tolerance classifies the default transform as
    untransformed. *)
Section AnyExternals.

Variable AI_DEG_TO_RAD : float -> float.
Variable cosf sinf : float -> float.
Variable maxChannels : uint.

Hypothesis tolerance_positive :
  F32.ltb F32.zero (AI_TT_ROTATION_EPSILON AI_DEG_TO_RAD) = true.
Hypothesis three_channels : 3 <= maxChannels.

Ltac run_pass :=
  unfold Execute, ChannelAllocator;
  match goal with
  | |- context [EquivalenceMerger ?d] =>
      let v := eval vm_compute in (EquivalenceMerger d) in
      change (EquivalenceMerger d) with v
  end;
  match goal with
  | |- context [mNumUVChannels ?s] =>
      let v := eval vm_compute in (mNumUVChannels s) in
      change (mNumUVChannels s) with v
  end;
  cbn [allocate];
  repeat match goal with
         | |- context [IsUntransformed AI_DEG_TO_RAD ?t] =>
             first [ change (IsUntransformed AI_DEG_TO_RAD t) with false
                   | replace (IsUntransformed AI_DEG_TO_RAD t) with true
                       by (symmetry; exact tolerance_positive) ]
         end;
  repeat match goal with
         | |- context [?n <? maxChannels] =>
             replace (n <? maxChannels) with true
               by (symmetry; apply Z.ltb_lt; lia)
         end;
  vm_compute; reflexivity.

Lemma Execute_unpopulated_once :
  Execute AI_DEG_TO_RAD cosf sinf maxChannels scene_unpopulated
  = Done scene_unpopulated_once.
Proof using tolerance_positive three_channels. run_pass. Qed.

Lemma Execute_unpopulated_twice :
  Execute AI_DEG_TO_RAD cosf sinf maxChannels scene_unpopulated_once
  = Done scene_unpopulated_twice.
Proof using tolerance_positive three_channels. run_pass. Qed.

End AnyExternals.

(** The scenarios of the specification, run on the model. *)
Example Execute_scenario_A :
  outcome_channels (Execute deg_to_rad cos_poly sin_poly 8 scene_A)
  = Some [[1; 1]]
  /\ outcome_matrix 1 (Execute deg_to_rad cos_poly sin_poly 8 scene_A)
     = Some (mkMatrix3x3 (F32.of_Z 2) F32.zero F32.zero
                         F32.zero (F32.of_Z 2) F32.zero
                         F32.zero F32.zero F32.one).
Proof. split; vm_compute; reflexivity. Qed.

Example Execute_scenario_B :
  Execute deg_to_rad cos_poly sin_poly 8 scene_B = Done scene_B.
Proof. vm_compute. reflexivity. Qed.

Example Execute_missing_transform :
  Execute deg_to_rad cos_poly sin_poly 8 scene_missing = Done scene_missing.
Proof. vm_compute. reflexivity. Qed.

Example Execute_scenario_C :
  outcome_channels (Execute deg_to_rad cos_poly sin_poly 8 scene_C)
  = Some [[1; 2]].
Proof. vm_compute. reflexivity. Qed.

(* ================================================================== *)
(** * Further properties of the descriptor *)

(** ** More facts about binary32 arithmetic *)

Module F32Arith.

(** Rounding treats both signs alike. *)
Lemma fabs_binary_round_aux (s : bool) (m e : Z) (l : location) :
  F32.fabs (binary_round_aux F32.prec F32.emax s m e l)
  = F32.fabs (binary_round_aux F32.prec F32.emax false m e l).
Proof.
  unfold binary_round_aux.
  destruct (shr_fexp _ _ _ _ _) as [mrs' e'].
  destruct (shr_fexp _ _ _ _ _) as [mrs'' e''].
  destruct (shr_m mrs'') as [ | p | p]; try reflexivity.
  destruct (e'' <=? _); reflexivity.
Qed.

Lemma fabs_binary_normalize_opp (z e : Z) :
  F32.fabs (binary_normalize F32.prec F32.emax (- z) e false)
  = F32.fabs (binary_normalize F32.prec F32.emax z e false).
Proof.
  destruct z as [ | p | p]; simpl; try reflexivity;
    unfold binary_round; destruct (shl_align _ _ _) as [mz ez];
    [ | symmetry]; apply fabs_binary_round_aux.
Qed.

(** The magnitude of a difference does not depend on the order of the
    operands. *)
Lemma fabs_sub_comm (u v : float) :
  F32.fabs (F32.sub u v) = F32.fabs (F32.sub v u).
Proof.
  destruct u as [su | su | | su mu eu], v as [sv | sv | | sv mv ev];
    try reflexivity;
    try (destruct su, sv; reflexivity).
  unfold F32.sub, SFsub. rewrite (Z.min_comm ev eu).
  rewrite <- fabs_binary_normalize_opp. f_equal. f_equal. lia.
Qed.

Lemma sub_nan_l (v : float) : F32.sub S754_nan v = S754_nan.
Proof. reflexivity. Qed.

Lemma sub_nan_r (u : float) : F32.sub u S754_nan = S754_nan.
Proof. destruct u; reflexivity. Qed.

Lemma is_nan_eq (u : float) : F32.is_nan u = true <-> u = S754_nan.
Proof. destruct u; simpl; split; intros H; congruence. Qed.

Lemma gtb_nan_l (e : float) : F32.gtb S754_nan e = false.
Proof. destruct e; reflexivity. Qed.

Lemma pos_succ_Z (p : positive) : Z.pos (PosDef.Pos.succ p) = Z.pos p + 1.
Proof. change (PosDef.Pos.succ p) with (Pos.succ p). lia. Qed.

Lemma mul_2p23 (m : positive) : (8388608 * m)%positive = Pos.iter xO m 23.
Proof. reflexivity. Qed.

Lemma digits_shift (m : positive) :
  Z.pos (digits2_pos (8388608 * m)) = Z.pos (digits2_pos m) + 23.
Proof. rewrite mul_2p23. simpl. rewrite !pos_succ_Z. lia. Qed.

(** One is a left unit of the multiplication on valid floats: the
    product of the mantissas is shifted back without loss. *)
Lemma mul_one_l (v : float) : F32.valid v = true -> F32.mul F32.one v = v.
Proof.
  destruct v as [s | s | | s m e]; try reflexivity.
  unfold F32.valid, valid_binary, bounded, canonical_mantissa.
  intros H. apply andb_prop in H as [Hc Hb]. apply Z.eqb_eq in Hc.
  change F32.one with (S754_finite false 8388608 (-23)).
  unfold F32.mul, SFmul. cbn [xorb].
  unfold binary_round_aux, shr_fexp.
  cbn [Zdigits2]. rewrite digits_shift.
  replace (fexp F32.prec F32.emax (Z.pos (digits2_pos m) + 23 + (-23 + e))
           - (-23 + e))
    with 23
    by (replace (Z.pos (digits2_pos m) + 23 + (-23 + e))
          with (Z.pos (digits2_pos m) + e) by lia;
        rewrite Hc; lia).
  rewrite mul_2p23. simpl.
  replace (-23 + e + 23) with e by lia.
  rewrite Hc, Z.sub_diag. simpl. rewrite Hb. reflexivity.
Qed.

Lemma mul_one_r (v : float) : F32.valid v = true -> F32.mul v F32.one = v.
Proof.
  intros H. rewrite <- (mul_one_l v H) at 2.
  destruct v as [s | s | | s m e]; try reflexivity;
    try (destruct s; reflexivity).
  change F32.one with (S754_finite false 8388608 (-23)).
  unfold F32.mul, SFmul.
  rewrite Pos.mul_comm, Z.add_comm, xorb_false_r. reflexivity.
Qed.

(** Zero times a finite float is a zero. *)
Lemma mul_zero_l (s : bool) (v : float) :
  is_finite v = true -> exists s', F32.mul (S754_zero s) v = S754_zero s'.
Proof. destruct v; try discriminate; simpl; eauto. Qed.

Lemma mul_pzero_l (v : float) :
  is_finite v = true -> exists s', F32.mul F32.zero v = S754_zero s'.
Proof. apply (mul_zero_l false). Qed.

Lemma mul_zero_r (s : bool) (v : float) :
  is_finite v = true -> exists s', F32.mul v (S754_zero s) = S754_zero s'.
Proof. destruct v; try discriminate; simpl; eauto. Qed.

(** Adding the positive zero leaves a float as it is, a negative zero
    apart. *)
Lemma add_zero_r (v : float) : F32.add v F32.zero = unsigned_zero v.
Proof. destruct v as [[] | [] | | s m e]; reflexivity. Qed.

Lemma add_signed_zero_r (s : bool) (v : float) :
  unsigned_zero (F32.add v (S754_zero s)) = unsigned_zero v.
Proof. destruct v as [[] | [] | | s' m e], s; reflexivity. Qed.

Lemma add_signed_zero_l (s : bool) (v : float) :
  unsigned_zero (F32.add (S754_zero s) v) = unsigned_zero v.
Proof. destruct v as [[] | [] | | s' m e], s; reflexivity. Qed.

(** A sum of three terms of which two are zeros, the last one
    positive. *)
Lemma add_pick_first (v : float) (s : bool) :
  F32.add (F32.add v (S754_zero s)) F32.zero = unsigned_zero v.
Proof. rewrite add_zero_r. apply add_signed_zero_r. Qed.

Lemma add_pick_second (v : float) (s : bool) :
  F32.add (F32.add (S754_zero s) v) F32.zero = unsigned_zero v.
Proof. rewrite add_zero_r. apply add_signed_zero_l. Qed.

Lemma add_zeros_zero (s s' : bool) :
  F32.add (F32.add (S754_zero s) (S754_zero s')) F32.zero = F32.zero.
Proof. destruct s, s'; reflexivity. Qed.

Lemma add_zeros_one (s s' : bool) :
  F32.add (F32.add (S754_zero s) (S754_zero s')) F32.one = F32.one.
Proof. destruct s, s'; reflexivity. Qed.

Lemma valid_neg (v : float) : F32.valid (F32.neg v) = F32.valid v.
Proof. destruct v; reflexivity. Qed.

Lemma is_finite_neg (v : float) : is_finite (F32.neg v) = is_finite v.
Proof. destruct v; reflexivity. Qed.

(** The comparison of finite floats of one sign: exponents first,
    then mantissas. *)
Lemma compare_cont_lt_trans (a b c : positive) :
  Pos.compare_cont Eq a b = Lt ->
  Pos.compare_cont Eq b c <> Gt ->
  Pos.compare_cont Eq a c = Lt.
Proof.
  fold (Pos.compare a b). fold (Pos.compare b c). fold (Pos.compare a c).
  rewrite !Pos.compare_lt_iff. intros H1 H2.
  destruct (Pos.compare_spec b c); subst; try congruence; lia.
Qed.

Lemma compare_cont_gt_trans (a b c : positive) :
  Pos.compare_cont Eq a b = Gt ->
  Pos.compare_cont Eq b c <> Lt ->
  Pos.compare_cont Eq a c = Gt.
Proof.
  fold (Pos.compare a b). fold (Pos.compare b c). fold (Pos.compare a c).
  rewrite !Pos.compare_gt_iff. intros H1 H2.
  destruct (Pos.compare_spec b c); subst; try congruence; lia.
Qed.

(** Strictly below a float that is at most a third one. *)
Lemma ltb_leb_trans (a b c : float) :
  F32.ltb a b = true -> F32.leb b c = true -> F32.ltb a c = true.
Proof.
  unfold F32.ltb, F32.leb, SFltb, SFleb.
  destruct a as [sa | sa | | sa ma ea], b as [sb | sb | | sb mb eb],
           c as [sc | sc | | sc mc ec];
    try discriminate; try reflexivity;
    try (destruct sa; discriminate); try (destruct sb; discriminate);
    try (destruct sa, sb; discriminate);
    try (destruct sb, sc; discriminate);
    try (destruct sa, sb, sc; (discriminate || reflexivity)).
  unfold SFcompare. intros Hab Hbc.
  destruct sa, sb, sc; try discriminate; try reflexivity;
    destruct (Z.compare_spec ea eb) as [Eab | Eab | Eab],
             (Z.compare_spec eb ec) as [Ebc | Ebc | Ebc],
             (Z.compare_spec ea ec) as [Eac | Eac | Eac];
    subst; try lia; try discriminate; try reflexivity.
  - destruct (Pos.compare_cont Eq ma mb) eqn:E1; try discriminate.
    rewrite (compare_cont_gt_trans ma mb mc E1); [reflexivity | ].
    intros E2. rewrite E2 in Hbc. discriminate.
  - rewrite (compare_cont_lt_trans ma mb mc); [reflexivity | | ].
    + destruct (Pos.compare_cont Eq ma mb); congruence.
    + intros E2. rewrite E2 in Hbc. discriminate.
Qed.

Lemma ltb_not_gtb (a b : float) : F32.ltb a b = true -> F32.gtb a b = false.
Proof.
  unfold F32.gtb, F32.ltb, SFltb. rewrite (F32Facts.compare_antisym a b).
  destruct (SFcompare a b) as [[] | ]; simpl; congruence.
Qed.

End F32Arith.

(* ================================================================== *)
(** ** [operator==] and [operator!=] on all floats *)

(** One component of the comparison: the test that rejects. *)
Lemma component_symmetric (u v : float) :
  F32.gtb (F32.fabs (F32.sub u v)) epsilon
  = F32.gtb (F32.fabs (F32.sub v u)) epsilon.
Proof. rewrite F32Arith.fabs_sub_comm. reflexivity. Qed.

Lemma component_nan (u v : float) :
  F32.is_nan u = true \/ F32.is_nan v = true \/ u = v ->
  F32.gtb (F32.fabs (F32.sub u v)) epsilon = false.
Proof.
  intros [H | [H | <-]].
  - apply F32Arith.is_nan_eq in H as ->. reflexivity.
  - apply F32Arith.is_nan_eq in H as ->.
    rewrite F32Arith.sub_nan_r. reflexivity.
  - apply F32Facts.sub_diag_within. reflexivity.
Qed.

Lemma operator_eq_sym (a b : STransformVecInfo) :
  operator_eq a b = operator_eq b a.
Proof.
  unfold operator_eq.
  rewrite (component_symmetric (x (mTranslation a))),
          (component_symmetric (y (mTranslation a))),
          (component_symmetric (x (mScaling a))),
          (component_symmetric (y (mScaling a))),
          (component_symmetric (mRotation a)).
  reflexivity.
Qed.

(** X1: [operator==] is reflexive and symmetric on all descriptors,
    whatever their components: numbers, signed zeros, infinities or
    NaN. *)
Theorem operator_eq_reflexive_symmetric :
  (forall a : STransformVecInfo, operator_eq a a = true)
  /\ (forall a b : STransformVecInfo, operator_eq a b = operator_eq b a).
Proof. split; [apply operator_eq_refl | apply operator_eq_sym]. Qed.

(** X2: NaN never makes [operator==] answer false.  When every one of
    the five components is NaN on one side at least, or is the same on
    both sides, the two descriptors compare equal; a descriptor whose
    components are all NaN compares equal to every descriptor. *)
Theorem operator_eq_nan (a b : STransformVecInfo) :
  (F32.is_nan (x (mTranslation a)) = true
   \/ F32.is_nan (x (mTranslation b)) = true
   \/ x (mTranslation a) = x (mTranslation b)) ->
  (F32.is_nan (y (mTranslation a)) = true
   \/ F32.is_nan (y (mTranslation b)) = true
   \/ y (mTranslation a) = y (mTranslation b)) ->
  (F32.is_nan (x (mScaling a)) = true
   \/ F32.is_nan (x (mScaling b)) = true
   \/ x (mScaling a) = x (mScaling b)) ->
  (F32.is_nan (y (mScaling a)) = true
   \/ F32.is_nan (y (mScaling b)) = true
   \/ y (mScaling a) = y (mScaling b)) ->
  (F32.is_nan (mRotation a) = true
   \/ F32.is_nan (mRotation b) = true
   \/ mRotation a = mRotation b) ->
  operator_eq a b = true.
Proof.
  intros Htx Hty Hsx Hsy Hr. unfold operator_eq.
  rewrite (component_nan _ _ Htx), (component_nan _ _ Hty),
          (component_nan _ _ Hsx), (component_nan _ _ Hsy),
          (component_nan _ _ Hr).
  reflexivity.
Qed.

Lemma operator_eq_nan_witness : operator_eq sample_nan sample_full = true.
Proof.
  apply (operator_eq_nan sample_nan sample_full); left; reflexivity.
Defined.

(** X3: [operator!=] answers true exactly when one of the five
    absolute differences is greater than 0.05f; it is never true
    between a descriptor and itself, and does not depend on the order
    of its operands. *)
Theorem operator_ne_exceeds (a b : STransformVecInfo) :
  operator_ne a b
  = F32.gtb (F32.fabs (F32.sub (x (mTranslation a)) (x (mTranslation b)))) epsilon
    || F32.gtb (F32.fabs (F32.sub (y (mTranslation a)) (y (mTranslation b)))) epsilon
    || F32.gtb (F32.fabs (F32.sub (x (mScaling a)) (x (mScaling b)))) epsilon
    || F32.gtb (F32.fabs (F32.sub (y (mScaling a)) (y (mScaling b)))) epsilon
    || F32.gtb (F32.fabs (F32.sub (mRotation a) (mRotation b))) epsilon
  /\ operator_ne a a = false
  /\ operator_ne a b = operator_ne b a.
Proof.
  split; [ | split].
  - unfold operator_ne, operator_eq.
    repeat match goal with
           | |- context [F32.gtb ?u epsilon] => destruct (F32.gtb u epsilon)
           end; reflexivity.
  - unfold operator_ne. rewrite operator_eq_refl. reflexivity.
  - unfold operator_ne. rewrite operator_eq_sym. reflexivity.
Qed.

(* ================================================================== *)
(** ** [IsUntransformed] on all floats *)

Lemma ltb_negative_nonnegative (r e : float) :
  F32.ltb r F32.zero = true -> F32.leb F32.zero e = true ->
  F32.ltb r e = true.
Proof.
  destruct r as [s | s | | s m ex], e as [s' | s' | | s' m' ex'];
    try discriminate; try reflexivity;
    destruct s; try discriminate; destruct s'; try discriminate;
    reflexivity.
Qed.

Section IdentityFacts.

Variable AI_DEG_TO_RAD : float -> float.

(** X4: [IsUntransformed] reads the transform components only: two
    descriptors with equal [mScaling], [mRotation] and [mTranslation]
    get the same answer, whatever their [uvIndex], mapping modes,
    [lockedPos] and [updateList]. *)
Theorem IsUntransformed_transform_only (t u : STransformVecInfo) :
  mScaling t = mScaling u ->
  mRotation t = mRotation u ->
  mTranslation t = mTranslation u ->
  IsUntransformed AI_DEG_TO_RAD t = IsUntransformed AI_DEG_TO_RAD u.
Proof.
  intros Hs Hr Ht. apply IsUntransformed_base, base_eq; assumption.
Qed.

(** X5: a descriptor with a NaN among its five transform components
    is never classified as untransformed, whatever the rotation
    tolerance. *)
Theorem IsUntransformed_nan (t : STransformVecInfo) :
  F32.is_nan (x (mScaling t)) = true
  \/ F32.is_nan (y (mScaling t)) = true
  \/ F32.is_nan (x (mTranslation t)) = true
  \/ F32.is_nan (y (mTranslation t)) = true
  \/ F32.is_nan (mRotation t) = true ->
  IsUntransformed AI_DEG_TO_RAD t = false.
Proof.
  unfold IsUntransformed.
  intros [H | [H | [H | [H | H]]]];
    apply F32Arith.is_nan_eq in H; rewrite H; clear H;
    repeat match goal with
           | |- context [F32.eqb F32.one (?f (?g t))] =>
               destruct (F32.eqb F32.one (f (g t)))
           | |- context [F32.to_bool (?f (?g t))] =>
               destruct (F32.to_bool (f (g t)))
           end;
    reflexivity.
Qed.

(** X6: the rotation is compared with its sign.  When the rotation
    tolerance is not negative, every descriptor with scale (1,1), zero
    translation and a negative rotation, of any magnitude, is
    classified as untransformed. *)
Theorem IsUntransformed_negative_rotation (t : STransformVecInfo) :
  F32.leb F32.zero (AI_TT_ROTATION_EPSILON AI_DEG_TO_RAD) = true ->
  mScaling t = mkVector2D F32.one F32.one ->
  is_zero (x (mTranslation t)) ->
  is_zero (y (mTranslation t)) ->
  F32.ltb (mRotation t) F32.zero = true ->
  IsUntransformed AI_DEG_TO_RAD t = true.
Proof.
  intros He Hs [sx Hx] [sy Hy] Hr. unfold IsUntransformed.
  rewrite Hs, Hx, Hy, (ltb_negative_nonnegative _ _ Hr He). reflexivity.
Qed.

(** What [IsUntransformed] demands of each component. *)
Lemma IsUntransformed_components (t : STransformVecInfo) :
  IsUntransformed AI_DEG_TO_RAD t = true ->
  mScaling t = mkVector2D F32.one F32.one
  /\ is_zero (x (mTranslation t))
  /\ is_zero (y (mTranslation t))
  /\ F32.ltb (mRotation t) (AI_TT_ROTATION_EPSILON AI_DEG_TO_RAD) = true.
Proof.
  unfold IsUntransformed.
  rewrite !andb_true_iff, !negb_true_iff.
  rewrite !F32Facts.eqb_one_iff, !F32Facts.to_bool_false_iff, vector_eq.
  unfold is_zero. intuition.
Qed.

(** X7: the class of untransformed descriptors is not closed under
    [operator==].  Every descriptor classified as untransformed
    compares equal to its copy shifted by (0.01, 0), which is not
    classified as untransformed. *)
Theorem IsUntransformed_not_closed (t : STransformVecInfo) :
  IsUntransformed AI_DEG_TO_RAD t = true ->
  operator_eq t (shifted t) = true
  /\ IsUntransformed AI_DEG_TO_RAD (shifted t) = false.
Proof.
  intros H. apply IsUntransformed_components in H
    as (Hs & [sx Hx] & [sy Hy] & _).
  split.
  - unfold operator_eq, shifted. simpl. rewrite Hx, Hy.
    rewrite !F32Facts.sub_diag_within by reflexivity.
    destruct sx, sy; reflexivity.
  - unfold IsUntransformed, shifted. simpl.
    repeat match goal with
           | |- context [F32.eqb F32.one ?v] =>
               destruct (F32.eqb F32.one v); try reflexivity
           end.
Qed.

(** A rotation that is not negative and lies below the tolerance of
    [operator==] is within that tolerance of zero. *)
Lemma rotation_within_epsilon (r : float) :
  F32.ltb r F32.zero = false ->
  F32.ltb r epsilon = true ->
  F32.gtb (F32.fabs (F32.sub r F32.zero)) epsilon = false.
Proof.
  intros Hneg Hlt.
  destruct r as [[] | [] | | [] m e]; try discriminate; try reflexivity.
  change (F32.fabs (F32.sub (S754_finite false m e) F32.zero))
    with (S754_finite false m e).
  apply F32Arith.ltb_not_gtb. exact Hlt.
Qed.

(** X15: the two tolerance tests agree on rotations that are not
    negative.  When the rotation tolerance is at most the 0.05 of
    [operator==], every descriptor classified as untransformed whose
    rotation is not negative compares equal to the default
    descriptor. *)
Theorem IsUntransformed_equals_default (t : STransformVecInfo) :
  F32.leb (AI_TT_ROTATION_EPSILON AI_DEG_TO_RAD) epsilon = true ->
  F32.ltb (mRotation t) F32.zero = false ->
  IsUntransformed AI_DEG_TO_RAD t = true ->
  operator_eq t STransformVecInfo_default = true.
Proof.
  intros He Hneg H. apply IsUntransformed_components in H
    as (Hs & [sx Hx] & [sy Hy] & Hr).
  pose proof (rotation_within_epsilon _ Hneg
                (F32Arith.ltb_leb_trans _ _ _ Hr He)) as Hrot.
  unfold operator_eq. rewrite Hs, Hx, Hy.
  change (mRotation STransformVecInfo_default) with F32.zero.
  rewrite Hrot. destruct sx, sy; reflexivity.
Qed.

End IdentityFacts.

Lemma IsUntransformed_transform_only_witness :
  IsUntransformed deg_to_rad sample_full
  = IsUntransformed deg_to_rad sample_full_other.
Proof.
  apply (IsUntransformed_transform_only deg_to_rad
           sample_full sample_full_other); reflexivity.
Defined.

Lemma IsUntransformed_nan_witness :
  IsUntransformed deg_to_rad sample_nan = false.
Proof.
  apply (IsUntransformed_nan deg_to_rad sample_nan). left. reflexivity.
Defined.

Lemma IsUntransformed_negative_rotation_witness :
  IsUntransformed deg_to_rad sample_rot_minus1 = true.
Proof.
  apply (IsUntransformed_negative_rotation deg_to_rad sample_rot_minus1).
  - reflexivity.
  - reflexivity.
  - exists false. reflexivity.
  - exists false. reflexivity.
  - reflexivity.
Defined.

Lemma IsUntransformed_not_closed_witness :
  operator_eq STransformVecInfo_default (shifted STransformVecInfo_default)
  = true
  /\ IsUntransformed deg_to_rad (shifted STransformVecInfo_default) = false.
Proof.
  apply (IsUntransformed_not_closed deg_to_rad STransformVecInfo_default).
  reflexivity.
Defined.

Lemma IsUntransformed_equals_default_witness :
  operator_eq sample_rot0005 STransformVecInfo_default = true.
Proof.
  apply (IsUntransformed_equals_default deg_to_rad sample_rot0005);
    reflexivity.
Defined.

(* ================================================================== *)
(** ** [GetMatrix] factor by factor *)

(** Rows and columns made of zeros and ones. *)
Lemma dot3_pick_first (r3 k1 k2 k3 : float) :
  F32.valid k1 = true -> is_finite k2 = true ->
  F32.mul r3 k3 = F32.zero ->
  dot3 F32.one F32.zero r3 k1 k2 k3 = unsigned_zero k1.
Proof.
  intros H1 H2 H3. unfold dot3.
  destruct (F32Arith.mul_pzero_l k2 H2) as [s ->].
  rewrite (F32Arith.mul_one_l k1 H1), H3.
  apply F32Arith.add_pick_first.
Qed.

Lemma dot3_pick_second (r3 k1 k2 k3 : float) :
  is_finite k1 = true -> F32.valid k2 = true ->
  F32.mul r3 k3 = F32.zero ->
  dot3 F32.zero F32.one r3 k1 k2 k3 = unsigned_zero k2.
Proof.
  intros H1 H2 H3. unfold dot3.
  destruct (F32Arith.mul_pzero_l k1 H1) as [s ->].
  rewrite (F32Arith.mul_one_l k2 H2), H3.
  apply F32Arith.add_pick_second.
Qed.

Lemma dot3_bottom_zero (k1 k2 : float) :
  is_finite k1 = true -> is_finite k2 = true ->
  dot3 F32.zero F32.zero F32.one k1 k2 F32.zero = F32.zero.
Proof.
  intros H1 H2. unfold dot3.
  destruct (F32Arith.mul_pzero_l k1 H1) as [s1 ->].
  destruct (F32Arith.mul_pzero_l k2 H2) as [s2 ->].
  apply F32Arith.add_zeros_zero.
Qed.

Lemma dot3_bottom_one (k1 k2 : float) :
  is_finite k1 = true -> is_finite k2 = true ->
  dot3 F32.zero F32.zero F32.one k1 k2 F32.one = F32.one.
Proof.
  intros H1 H2. unfold dot3.
  destruct (F32Arith.mul_pzero_l k1 H1) as [s1 ->].
  destruct (F32Arith.mul_pzero_l k2 H2) as [s2 ->].
  apply F32Arith.add_zeros_one.
Qed.

(** A product keeps the bottom row (0, 0, 1) when the right factor
    has it and its two upper rows are finite. *)
Lemma operator_mul_assign_bottom (this m : aiMatrix3x3) :
  c1 this = F32.zero -> c2 this = F32.zero -> c3 this = F32.one ->
  c1 m = F32.zero -> c2 m = F32.zero -> c3 m = F32.one ->
  is_finite (a1 m) = true -> is_finite (a2 m) = true ->
  is_finite (a3 m) = true -> is_finite (b1 m) = true ->
  is_finite (b2 m) = true -> is_finite (b3 m) = true ->
  c1 (operator_mul_assign this m) = F32.zero
  /\ c2 (operator_mul_assign this m) = F32.zero
  /\ c3 (operator_mul_assign this m) = F32.one.
Proof.
  intros T1 T2 T3 M1 M2 M3 A1 A2 A3 B1 B2 B3.
  unfold operator_mul_assign. cbn [c1 c2 c3].
  rewrite T1, T2, T3, M1, M2, M3.
  rewrite !dot3_bottom_zero, dot3_bottom_one by assumption.
  auto.
Qed.

Section MatrixFacts.

Variable AI_DEG_TO_RAD : float -> float.
Variable cosf sinf : float -> float.

(** The matrix built for the rotation is [rotation_matrix]. *)
Lemma GetMatrix_unfold (t : STransformVecInfo) (mOut : aiMatrix3x3) :
  GetMatrix cosf sinf t mOut =
    let m0 := if F32.neb F32.one (x (mScaling t))
                 || F32.neb F32.one (y (mScaling t))
              then scale_matrix t else aiMatrix3x3_default in
    let m1 := if F32.to_bool (mRotation t)
              then operator_mul_assign m0 (rotation_matrix cosf sinf t)
              else m0 in
    if F32.to_bool (x (mTranslation t)) || F32.to_bool (y (mTranslation t))
    then operator_mul_assign m1 (translation_matrix t)
    else m1.
Proof using Type. reflexivity. Qed.

Lemma scaling_guard_off (t : STransformVecInfo) :
  F32.neb F32.one (x (mScaling t)) || F32.neb F32.one (y (mScaling t)) = false ->
  scale_matrix t = aiMatrix3x3_default.
Proof using Type.
  unfold F32.neb. rewrite orb_false_iff, !negb_false_iff.
  fold (F32.eqb F32.one (x (mScaling t))).
  fold (F32.eqb F32.one (y (mScaling t))).
  rewrite !F32Facts.eqb_one_iff. intros [Hx Hy].
  unfold scale_matrix. rewrite Hx, Hy. reflexivity.
Qed.

(** Whatever the scale, the first factor is the scale matrix. *)
Lemma GetMatrix_first_factor (t : STransformVecInfo) :
  (if F32.neb F32.one (x (mScaling t)) || F32.neb F32.one (y (mScaling t))
   then scale_matrix t else aiMatrix3x3_default)
  = scale_matrix t.
Proof using Type.
  destruct (_ || _) eqn:E; [reflexivity | ].
  symmetry. apply scaling_guard_off, E.
Qed.

(** X8: with a rotation and a translation that compare equal to zero,
    [GetMatrix] leaves exactly the scale matrix in [mOut], for every
    scale, numbers or not: no product is computed. *)
Theorem GetMatrix_scale_only (t : STransformVecInfo) (mOut : aiMatrix3x3) :
  is_zero (mRotation t) ->
  is_zero (x (mTranslation t)) ->
  is_zero (y (mTranslation t)) ->
  GetMatrix cosf sinf t mOut = scale_matrix t.
Proof using Type.
  intros Hr Hx Hy. rewrite GetMatrix_unfold. cbv zeta.
  apply F32Facts.to_bool_false_iff in Hr, Hx, Hy.
  rewrite Hr, Hx, Hy. apply GetMatrix_first_factor.
Qed.

(** X9: for a descriptor classified as untransformed, [GetMatrix]
    applies neither a scale nor a translation: it leaves the identity
    when the rotation compares equal to zero, and the identity times
    the rotation matrix otherwise. *)
Theorem GetMatrix_untransformed (t : STransformVecInfo) (mOut : aiMatrix3x3) :
  IsUntransformed AI_DEG_TO_RAD t = true ->
  GetMatrix cosf sinf t mOut =
    if F32.to_bool (mRotation t)
    then operator_mul_assign aiMatrix3x3_default (rotation_matrix cosf sinf t)
    else aiMatrix3x3_default.
Proof using Type.
  intros H. apply IsUntransformed_components in H as (Hs & Hx & Hy & _).
  rewrite GetMatrix_unfold. cbv zeta.
  apply F32Facts.to_bool_false_iff in Hx, Hy. rewrite Hx, Hy.
  rewrite GetMatrix_first_factor. unfold scale_matrix. rewrite Hs.
  reflexivity.
Qed.

(** X10: the matrix is affine on finite inputs.  When the cosine and
    the sine of the rotation and the two translation components are
    finite, the bottom row that [GetMatrix] leaves is exactly
    (0, 0, 1), for every scale. *)
Theorem GetMatrix_bottom_row (t : STransformVecInfo) (mOut : aiMatrix3x3) :
  is_finite (cosf (mRotation t)) = true ->
  is_finite (sinf (mRotation t)) = true ->
  is_finite (x (mTranslation t)) = true ->
  is_finite (y (mTranslation t)) = true ->
  c1 (GetMatrix cosf sinf t mOut) = F32.zero
  /\ c2 (GetMatrix cosf sinf t mOut) = F32.zero
  /\ c3 (GetMatrix cosf sinf t mOut) = F32.one.
Proof using Type.
  intros Hc Hs Hx Hy. rewrite GetMatrix_unfold. cbv zeta.
  rewrite GetMatrix_first_factor.
  assert (c1 (if F32.to_bool (mRotation t)
              then operator_mul_assign (scale_matrix t)
                                       (rotation_matrix cosf sinf t)
              else scale_matrix t) = F32.zero
          /\ c2 (if F32.to_bool (mRotation t)
                 then operator_mul_assign (scale_matrix t)
                                          (rotation_matrix cosf sinf t)
                 else scale_matrix t) = F32.zero
          /\ c3 (if F32.to_bool (mRotation t)
                 then operator_mul_assign (scale_matrix t)
                                          (rotation_matrix cosf sinf t)
                 else scale_matrix t) = F32.one) as (R1 & R2 & R3).
  { destruct (F32.to_bool (mRotation t)); [ | auto].
    apply operator_mul_assign_bottom; try reflexivity; try assumption.
    cbn [rotation_matrix a2]. rewrite F32Arith.is_finite_neg. exact Hs. }
  destruct (_ || _); [ | auto].
  apply operator_mul_assign_bottom; try reflexivity; assumption.
Qed.

Lemma is_number_valid (v : float) : is_number v = true -> F32.valid v = true.
Proof using Type.
  unfold is_number. intros H. apply andb_prop in H as [H _]. exact H.
Qed.

Lemma is_number_finite (v : float) : is_number v = true -> is_finite v = true.
Proof using Type.
  unfold is_number. intros H. apply andb_prop in H as [_ H]. exact H.
Qed.

Lemma is_number_neg (v : float) : is_number (F32.neg v) = is_number v.
Proof using Type.
  unfold is_number. rewrite F32Arith.valid_neg, F32Arith.is_finite_neg.
  reflexivity.
Qed.

(** The scale matrix times the translation matrix. *)
Lemma scale_translation_product (t : STransformVecInfo) :
  is_number (x (mScaling t)) = true ->
  is_number (y (mScaling t)) = true ->
  is_finite (x (mTranslation t)) = true ->
  is_finite (y (mTranslation t)) = true ->
  operator_mul_assign (scale_matrix t) (translation_matrix t)
  = mkMatrix3x3
      (unsigned_zero (x (mScaling t))) F32.zero
      (unsigned_zero (F32.mul (x (mScaling t)) (x (mTranslation t))))
      F32.zero (unsigned_zero (y (mScaling t)))
      (unsigned_zero (F32.mul (y (mScaling t)) (y (mTranslation t))))
      F32.zero F32.zero F32.one.
Proof using Type.
  intros Hsx Hsy Htx Hty.
  pose proof (is_number_valid _ Hsx) as Vsx.
  pose proof (is_number_valid _ Hsy) as Vsy.
  apply is_number_finite in Hsx, Hsy.
  destruct (F32Arith.mul_zero_r false _ Hsx) as [s1 E1].
  destruct (F32Arith.mul_zero_r false _ Hsy) as [s2 E2].
  destruct (F32Arith.mul_pzero_l _ Htx) as [s3 E3].
  destruct (F32Arith.mul_pzero_l _ Hty) as [s4 E4].
  unfold operator_mul_assign, scale_matrix, translation_matrix.
  cbn [a1 a2 a3 b1 b2 b3 c1 c2 c3]. unfold dot3.
  change (F32.mul (x (mScaling t)) F32.zero)
    with (F32.mul (x (mScaling t)) (S754_zero false)).
  change (F32.mul (y (mScaling t)) F32.zero)
    with (F32.mul (y (mScaling t)) (S754_zero false)).
  rewrite (F32Arith.mul_one_r _ Vsx), (F32Arith.mul_one_r _ Vsy).
  rewrite E1, E2, E3, E4.
  f_equal;
    first [ apply F32Arith.add_pick_first
          | apply F32Arith.add_pick_second
          | apply F32Arith.add_zeros_zero
          | apply F32Arith.add_zeros_one
          | reflexivity ].
Qed.

(** The identity times the rotation matrix. *)
Lemma identity_rotation_product (t : STransformVecInfo) :
  is_number (cosf (mRotation t)) = true ->
  is_number (sinf (mRotation t)) = true ->
  operator_mul_assign aiMatrix3x3_default (rotation_matrix cosf sinf t)
  = mkMatrix3x3
      (unsigned_zero (cosf (mRotation t)))
      (unsigned_zero (F32.neg (sinf (mRotation t)))) F32.zero
      (unsigned_zero (sinf (mRotation t)))
      (unsigned_zero (cosf (mRotation t))) F32.zero
      F32.zero F32.zero F32.one.
Proof using Type.
  intros Hc Hs.
  assert (Hn : is_number (F32.neg (sinf (mRotation t))) = true)
    by (rewrite is_number_neg; exact Hs).
  pose proof (is_number_valid _ Hc) as Vc.
  pose proof (is_number_valid _ Hs) as Vs.
  pose proof (is_number_valid _ Hn) as Vn.
  apply is_number_finite in Hc, Hs, Hn.
  unfold operator_mul_assign, rotation_matrix, aiMatrix3x3_default.
  cbn [a1 a2 a3 b1 b2 b3 c1 c2 c3].
  f_equal;
    first [ apply dot3_pick_first; (assumption || reflexivity)
          | apply dot3_pick_second; (assumption || reflexivity)
          | apply dot3_bottom_zero; assumption
          | reflexivity ].
Qed.

(** The scale matrix times the rotation matrix. *)
Lemma scale_rotation_product (t : STransformVecInfo) :
  is_finite (x (mScaling t)) = true ->
  is_finite (y (mScaling t)) = true ->
  is_finite (cosf (mRotation t)) = true ->
  is_finite (sinf (mRotation t)) = true ->
  operator_mul_assign (scale_matrix t) (rotation_matrix cosf sinf t)
  = mkMatrix3x3
      (unsigned_zero (F32.mul (x (mScaling t)) (cosf (mRotation t))))
      (unsigned_zero (F32.mul (x (mScaling t)) (F32.neg (sinf (mRotation t)))))
      F32.zero
      (unsigned_zero (F32.mul (y (mScaling t)) (sinf (mRotation t))))
      (unsigned_zero (F32.mul (y (mScaling t)) (cosf (mRotation t))))
      F32.zero
      F32.zero F32.zero F32.one.
Proof using Type.
  intros Hsx Hsy Hc Hs.
  assert (Hn : is_finite (F32.neg (sinf (mRotation t))) = true)
    by (rewrite F32Arith.is_finite_neg; exact Hs).
  destruct (F32Arith.mul_zero_r false _ Hsx) as [s1 E1].
  destruct (F32Arith.mul_zero_r false _ Hsy) as [s2 E2].
  destruct (F32Arith.mul_pzero_l _ Hc) as [s3 E3].
  destruct (F32Arith.mul_pzero_l _ Hs) as [s4 E4].
  destruct (F32Arith.mul_pzero_l _ Hn) as [s5 E5].
  unfold operator_mul_assign, scale_matrix, rotation_matrix.
  cbn [a1 a2 a3 b1 b2 b3 c1 c2 c3]. unfold dot3.
  change (F32.mul (x (mScaling t)) F32.zero)
    with (F32.mul (x (mScaling t)) (S754_zero false)).
  change (F32.mul (y (mScaling t)) F32.zero)
    with (F32.mul (y (mScaling t)) (S754_zero false)).
  rewrite E1, E2, E3, E4, E5.
  f_equal;
    first [ apply F32Arith.add_pick_first
          | apply F32Arith.add_pick_second
          | apply F32Arith.add_zeros_zero
          | apply F32Arith.add_zeros_one
          | reflexivity ].
Qed.

(** X11: a pure translation gives the translation matrix.  With scale
    (1,1), a rotation that compares equal to zero and a translation
    made of binary32 numbers, [GetMatrix] leaves the matrix with ones
    on the diagonal and the translation in the third column, a
    negative zero component being stored as the positive zero. *)
Theorem GetMatrix_translation_only (t : STransformVecInfo) (mOut : aiMatrix3x3) :
  mScaling t = mkVector2D F32.one F32.one ->
  is_zero (mRotation t) ->
  is_number (x (mTranslation t)) = true ->
  is_number (y (mTranslation t)) = true ->
  GetMatrix cosf sinf t mOut
  = mkMatrix3x3 F32.one F32.zero (unsigned_zero (x (mTranslation t)))
                F32.zero F32.one (unsigned_zero (y (mTranslation t)))
                F32.zero F32.zero F32.one.
Proof using Type.
  intros Hs Hr Hx Hy. rewrite GetMatrix_unfold. cbv zeta.
  rewrite GetMatrix_first_factor.
  apply F32Facts.to_bool_false_iff in Hr. rewrite Hr.
  destruct (_ || _) eqn:E.
  - rewrite scale_translation_product;
      try (rewrite Hs; reflexivity);
      try (apply is_number_finite; assumption).
    rewrite Hs. cbn [x y].
    rewrite !F32Arith.mul_one_l by (apply is_number_valid; assumption).
    reflexivity.
  - apply orb_false_iff in E as [Ex Ey].
    apply F32Facts.to_bool_false_iff in Ex as [sx Ex].
    apply F32Facts.to_bool_false_iff in Ey as [sy Ey].
    unfold scale_matrix. rewrite Hs, Ex, Ey. reflexivity.
Qed.

(** X12: a pure rotation gives the rotation matrix.  With scale (1,1),
    a translation that compares equal to zero and a rotation that does
    not, when the cosine and the sine of the rotation are binary32
    numbers, [GetMatrix] leaves the matrix with the cosine on the
    diagonal, minus the sine above it and the sine below it, a
    negative zero entry being stored as the positive zero. *)
Theorem GetMatrix_rotation_only (t : STransformVecInfo) (mOut : aiMatrix3x3) :
  mScaling t = mkVector2D F32.one F32.one ->
  ~ is_zero (mRotation t) ->
  is_zero (x (mTranslation t)) ->
  is_zero (y (mTranslation t)) ->
  is_number (cosf (mRotation t)) = true ->
  is_number (sinf (mRotation t)) = true ->
  GetMatrix cosf sinf t mOut
  = mkMatrix3x3
      (unsigned_zero (cosf (mRotation t)))
      (unsigned_zero (F32.neg (sinf (mRotation t)))) F32.zero
      (unsigned_zero (sinf (mRotation t)))
      (unsigned_zero (cosf (mRotation t))) F32.zero
      F32.zero F32.zero F32.one.
Proof using Type.
  intros Hs Hr Hx Hy Hc Hsn. rewrite GetMatrix_unfold. cbv zeta.
  rewrite GetMatrix_first_factor.
  apply F32Facts.to_bool_false_iff in Hx, Hy. rewrite Hx, Hy.
  rewrite (to_bool_not_zero _ Hr). cbn [orb].
  unfold scale_matrix at 1. rewrite Hs.
  apply identity_rotation_product; assumption.
Qed.

(** X13: the translation is scaled.  With a rotation that compares
    equal to zero, a translation that does not, and scale and
    translation made of binary32 numbers, [GetMatrix] leaves the
    matrix with the scale on the diagonal and, in the third column,
    the products of each scale component with its translation
    component. *)
Theorem GetMatrix_scale_translation (t : STransformVecInfo) (mOut : aiMatrix3x3) :
  is_zero (mRotation t) ->
  ~ (is_zero (x (mTranslation t)) /\ is_zero (y (mTranslation t))) ->
  is_number (x (mScaling t)) = true ->
  is_number (y (mScaling t)) = true ->
  is_number (x (mTranslation t)) = true ->
  is_number (y (mTranslation t)) = true ->
  GetMatrix cosf sinf t mOut
  = mkMatrix3x3
      (unsigned_zero (x (mScaling t))) F32.zero
      (unsigned_zero (F32.mul (x (mScaling t)) (x (mTranslation t))))
      F32.zero (unsigned_zero (y (mScaling t)))
      (unsigned_zero (F32.mul (y (mScaling t)) (y (mTranslation t))))
      F32.zero F32.zero F32.one.
Proof using Type.
  intros Hr Ht Hsx Hsy Hx Hy. rewrite GetMatrix_unfold. cbv zeta.
  rewrite GetMatrix_first_factor.
  apply F32Facts.to_bool_false_iff in Hr. rewrite Hr.
  rewrite (to_bool_translation _ Ht).
  apply scale_translation_product; try assumption;
    apply is_number_finite; assumption.
Qed.

(** X14: the rotation is scaled row by row.  With a translation that
    compares equal to zero, a rotation that does not, and finite
    scale, cosine and sine, [GetMatrix] leaves the matrix whose first
    row is the rotation row (cos, -sin) multiplied by scale.x and
    whose second row is (sin, cos) multiplied by scale.y. *)
Theorem GetMatrix_scale_rotation (t : STransformVecInfo) (mOut : aiMatrix3x3) :
  ~ is_zero (mRotation t) ->
  is_zero (x (mTranslation t)) ->
  is_zero (y (mTranslation t)) ->
  is_finite (x (mScaling t)) = true ->
  is_finite (y (mScaling t)) = true ->
  is_finite (cosf (mRotation t)) = true ->
  is_finite (sinf (mRotation t)) = true ->
  GetMatrix cosf sinf t mOut
  = mkMatrix3x3
      (unsigned_zero (F32.mul (x (mScaling t)) (cosf (mRotation t))))
      (unsigned_zero (F32.mul (x (mScaling t)) (F32.neg (sinf (mRotation t)))))
      F32.zero
      (unsigned_zero (F32.mul (y (mScaling t)) (sinf (mRotation t))))
      (unsigned_zero (F32.mul (y (mScaling t)) (cosf (mRotation t))))
      F32.zero
      F32.zero F32.zero F32.one.
Proof using Type.
  intros Hr Hx Hy Hsx Hsy Hc Hs. rewrite GetMatrix_unfold. cbv zeta.
  rewrite GetMatrix_first_factor.
  apply F32Facts.to_bool_false_iff in Hx, Hy. rewrite Hx, Hy.
  rewrite (to_bool_not_zero _ Hr). cbn [orb].
  apply scale_rotation_product; assumption.
Qed.

End MatrixFacts.

Lemma GetMatrix_scale_only_witness :
  GetMatrix cos_poly sin_poly sample_scale aiMatrix3x3_default
  = scale_matrix sample_scale.
Proof.
  apply (GetMatrix_scale_only cos_poly sin_poly sample_scale);
    exists false; reflexivity.
Defined.

Lemma GetMatrix_untransformed_witness :
  GetMatrix cos_poly sin_poly sample_rot_minus1 aiMatrix3x3_default =
    if F32.to_bool (mRotation sample_rot_minus1)
    then operator_mul_assign aiMatrix3x3_default
                             (rotation_matrix cos_poly sin_poly sample_rot_minus1)
    else aiMatrix3x3_default.
Proof.
  apply (GetMatrix_untransformed deg_to_rad cos_poly sin_poly
           sample_rot_minus1).
  reflexivity.
Defined.

Lemma GetMatrix_translation_only_witness :
  GetMatrix cos_poly sin_poly sample_shift aiMatrix3x3_default
  = mkMatrix3x3 F32.one F32.zero
                (unsigned_zero (x (mTranslation sample_shift)))
                F32.zero F32.one
                (unsigned_zero (y (mTranslation sample_shift)))
                F32.zero F32.zero F32.one.
Proof.
  apply (GetMatrix_translation_only cos_poly sin_poly sample_shift).
  - reflexivity.
  - exists false. reflexivity.
  - reflexivity.
  - reflexivity.
Defined.

Lemma GetMatrix_rotation_only_witness :
  GetMatrix cos_poly sin_poly sample_rot05 aiMatrix3x3_default
  = mkMatrix3x3
      (unsigned_zero (cos_poly (mRotation sample_rot05)))
      (unsigned_zero (F32.neg (sin_poly (mRotation sample_rot05)))) F32.zero
      (unsigned_zero (sin_poly (mRotation sample_rot05)))
      (unsigned_zero (cos_poly (mRotation sample_rot05))) F32.zero
      F32.zero F32.zero F32.one.
Proof.
  apply (GetMatrix_rotation_only cos_poly sin_poly sample_rot05).
  - reflexivity.
  - intros [s H]. discriminate H.
  - exists false. reflexivity.
  - exists false. reflexivity.
  - reflexivity.
  - reflexivity.
Defined.

Lemma GetMatrix_scale_translation_witness :
  GetMatrix cos_poly sin_poly sample_scale_shift aiMatrix3x3_default
  = mkMatrix3x3
      (unsigned_zero (x (mScaling sample_scale_shift))) F32.zero
      (unsigned_zero (F32.mul (x (mScaling sample_scale_shift))
                              (x (mTranslation sample_scale_shift))))
      F32.zero (unsigned_zero (y (mScaling sample_scale_shift)))
      (unsigned_zero (F32.mul (y (mScaling sample_scale_shift))
                              (y (mTranslation sample_scale_shift))))
      F32.zero F32.zero F32.one.
Proof.
  apply (GetMatrix_scale_translation cos_poly sin_poly sample_scale_shift).
  - exists false. reflexivity.
  - intros [[s H] _]. discriminate H.
  - reflexivity.
  - reflexivity.
  - reflexivity.
  - reflexivity.
Defined.

Lemma GetMatrix_scale_rotation_witness :
  GetMatrix cos_poly sin_poly sample_scale_rot aiMatrix3x3_default
  = mkMatrix3x3
      (unsigned_zero (F32.mul (x (mScaling sample_scale_rot))
                              (cos_poly (mRotation sample_scale_rot))))
      (unsigned_zero (F32.mul (x (mScaling sample_scale_rot))
                              (F32.neg (sin_poly (mRotation sample_scale_rot)))))
      F32.zero
      (unsigned_zero (F32.mul (y (mScaling sample_scale_rot))
                              (sin_poly (mRotation sample_scale_rot))))
      (unsigned_zero (F32.mul (y (mScaling sample_scale_rot))
                              (cos_poly (mRotation sample_scale_rot))))
      F32.zero
      F32.zero F32.zero F32.one.
Proof.
  apply (GetMatrix_scale_rotation cos_poly sin_poly sample_scale_rot).
  - intros [s H]. discriminate H.
  - exists false. reflexivity.
  - exists false. reflexivity.
  - reflexivity.
  - reflexivity.
  - reflexivity.
  - reflexivity.
Defined.

Lemma GetMatrix_bottom_row_witness :
  c1 (GetMatrix cos_poly sin_poly sample_full aiMatrix3x3_default) = F32.zero
  /\ c2 (GetMatrix cos_poly sin_poly sample_full aiMatrix3x3_default) = F32.zero
  /\ c3 (GetMatrix cos_poly sin_poly sample_full aiMatrix3x3_default) = F32.one.
Proof.
  apply (GetMatrix_bottom_row cos_poly sin_poly sample_full); reflexivity.
Defined.
